(** * CameraTimeCard: the recognition event controller

    A shallow embedding of [AdvancedFacialRecognitionTimeCard]
    (src/facial_recognition_advanced.py) and of the recognition loop of
    [FacialRecognitionTimeCard] (src/facial_recognition_timecard.py):
    the cooldown ledger, the failure window and lockout, the work-hours
    policy, the encoding cache, the retrying submitter and the
    per-face decision of [process_recognition].

    Conventions of the embedding.
    - A [datetime] is an integer number of microseconds (the resolution of
      Python's [datetime]); a [timedelta] is a difference of two of them.
      Every call of [datetime.now()] in the source is an explicit argument
      of the function that makes it, so two reads in one call may differ.
    - [timedelta.total_seconds()] and the distances of the matcher are
      floats in the source; they are exact rationals here.
    - [hasattr(config, X)] / [getattr(config, X, d)] become option-valued
      fields of the configuration record.
    - Python dicts are [gmap]s; the external matcher, the content hash and
      the attendance store are interfaces (type classes).
    - Calls that leave the process (matcher, HTTP POST, sleep, webhook,
      image write) are recorded in the [trace] field of the state.
      Logging is not recorded. *)

From Stdlib Require Import ZArith QArith Lia Bool.
From stdpp Require Import base gmap strings list pretty.

Open Scope Z_scope.

(** ** Time *)

Module Time.

Definition datetime := Z.
Definition timedelta := Z.

(** [timedelta(seconds=n)] *)
Definition seconds (n : Z) : timedelta := n * 1000000.

(** [timedelta(hours=n)] *)
Definition hours (n : Z) : timedelta := n * 3600 * 1000000.

(** [td.total_seconds()] *)
Definition total_seconds (td : timedelta) : Q := td # 1000000.

(** [dt.time()]: microseconds since midnight *)
Definition time_of_day (dt : datetime) : Z := dt mod (24 * 3600 * 1000000).

(** Python's [int(x)] on a float: truncation toward zero *)
Definition int_of (q : Q) : Z := Z.quot (Qnum q) (Z.pos (Qden q)).

End Time.

(** ** Configuration *)

Definition color : Type := Z * Z * Z.

Record Config := mkConfig {
  FACE_RECOGNITION_TOLERANCE : Q;
  RECOGNITION_COOLDOWN : Z;            (* seconds *)
  WORK_START_TIME : option Z;          (* time of day; [None]: absent or None *)
  WORK_END_TIME : option Z;
  ALLOW_AFTER_HOURS : option bool;     (* getattr default True *)
  MAX_FAILED_ATTEMPTS : option Z;      (* hasattr *)
  LOCKOUT_TIME : option Z;             (* hasattr; seconds *)
  SAVE_UNKNOWN_FACES : bool;           (* hasattr and value *)
  CACHE_ENCODINGS : bool;              (* hasattr and value *)
  MAX_CACHE_SIZE : option Z;           (* getattr default 1000 *)
  NOTIFY_ON_FIRST_ENTRY : bool;        (* hasattr and value *)
  COLOR_RECOGNIZED : color;
  COLOR_UNKNOWN : color;
  COLOR_COOLDOWN : option color        (* getattr default (0, 255, 255) *)
}.

(** [getattr(config, X, d)] *)
Definition getattr {A} (field : option A) (d : A) : A := default d field.

(** ** External interfaces *)

(** The [face_recognition] library and the content hash
    [hash(face_encoding.tobytes())]. *)
Class Matcher (encoding : Type) := {
  compare_faces : list encoding -> encoding -> Q -> list bool;
  face_distance : list encoding -> encoding -> list Q;
  encoding_key : encoding -> Z
}.

(** The JSON body of a 200 response, as far as the controller reads it:
    [result.get('message')] and [result.get('data', {}).get('entry_type')]. *)
Record store_result := mkResult {
  message : option string;
  entry_type : option string
}.

(** What one [requests.post] to [/timecard] does: it returns a response
    with a status code, or raises [requests.RequestException]. *)
Inductive response :=
| Response (status_code : Z) (json : store_result)
| RequestException.

(** The attendance store: the outcome of the [k]-th POST of the run. *)
Class Backend := { store : nat -> response }.

(** ** State of the controller *)

Inductive event :=
| EvCompareFaces
| EvFaceDistance
| EvPost (employee_id employee_name : string) (timestamp : Z)
| EvSleep (secs : Z)
| EvNotify (event_type employee_id employee_name : string) (timestamp : Z)
| EvSaveUnknownFace.

Record System {encoding : Type} := mkSystem {
  known_faces : list encoding;
  known_names : list string;
  known_ids : list string;
  last_recognition : gmap string Z;
  failed_attempts : gmap string (list Z);
  locked_until : gmap string Z;
  encoding_cache : option (gmap Z (string * string));
  posts : nat;                 (* POSTs made so far *)
  trace : list event           (* external calls, oldest first *)
}.
Arguments System : clear implicits.
Arguments mkSystem {encoding}.

Section Setters.
Context {encoding : Type}.
Implicit Type s : System encoding.

Definition set_last_recognition (m : gmap string Z) s :=
  mkSystem (known_faces s) (known_names s) (known_ids s) m
           (failed_attempts s) (locked_until s) (encoding_cache s)
           (posts s) (trace s).

Definition set_failed_attempts (m : gmap string (list Z)) s :=
  mkSystem (known_faces s) (known_names s) (known_ids s) (last_recognition s)
           m (locked_until s) (encoding_cache s) (posts s) (trace s).

Definition set_locked_until (m : gmap string Z) s :=
  mkSystem (known_faces s) (known_names s) (known_ids s) (last_recognition s)
           (failed_attempts s) m (encoding_cache s) (posts s) (trace s).

Definition set_encoding_cache (c : option (gmap Z (string * string))) s :=
  mkSystem (known_faces s) (known_names s) (known_ids s) (last_recognition s)
           (failed_attempts s) (locked_until s) c (posts s) (trace s).

(** one more external call; a POST also advances the store *)
Definition emit (e : event) s :=
  mkSystem (known_faces s) (known_names s) (known_ids s) (last_recognition s)
           (failed_attempts s) (locked_until s) (encoding_cache s)
           (match e with EvPost _ _ _ => S (posts s) | _ => posts s end)
           (trace s ++ [e]).

(** [__init__]: empty ledgers; the cache is [{}] when [CACHE_ENCODINGS]
    is set and [None] otherwise. *)
Definition init_system (cfg : Config)
    (faces : list encoding) (names ids : list string) : System encoding :=
  mkSystem faces names ids ∅ ∅ ∅
           (if CACHE_ENCODINGS cfg then Some ∅ else None) 0%nat [].
End Setters.

(** ** The ledgers *)

Section Ledgers.
Context {encoding : Type} (cfg : Config).
Implicit Type s : System encoding.

(** [is_work_hours]; [now] is the [datetime.now()] of line 209. *)
Definition is_work_hours (now : Z) : bool :=
  match WORK_START_TIME cfg with
  | None => true
  | Some start =>
    match WORK_END_TIME cfg with
    | None => true
    | Some stop =>
      (start <=? Time.time_of_day now) && (Time.time_of_day now <=? stop)
    end
  end.

(** [is_employee_locked]: an expired entry is deleted together with the
    failure history of the same key. *)
Definition is_employee_locked (now : Z) (employee_id : string) s
    : bool * System encoding :=
  match locked_until s !! employee_id with
  | None => (false, s)
  | Some unlock_at =>
    if unlock_at <? now then
      (false,
       set_failed_attempts (delete employee_id (failed_attempts s))
         (set_locked_until (delete employee_id (locked_until s)) s))
    else (true, s)
  end.

(** [can_register_again]: [now_lock] is the clock read inside
    [is_employee_locked], [now] the one of line 233. *)
Definition can_register_again (now_lock now : Z) (employee_id : string) s
    : bool * System encoding :=
  let '(locked, s1) := is_employee_locked now_lock employee_id s in
  if locked then (false, s1)
  else
    match last_recognition s1 !! employee_id with
    | Some last =>
      (Qle_bool (inject_Z (RECOGNITION_COOLDOWN cfg))
                (Time.total_seconds (now - last)), s1)
    | None => (true, s1)
    end.

(** line 401: [self.last_recognition[employee_id] = current_time] *)
Definition mark_accepted (employee_id : string) (current_time : Z) s :=
  set_last_recognition (<[employee_id := current_time]> (last_recognition s)) s.

(** [register_failed_attempt(frame)]; [has_frame] says [frame is not None]. *)
Definition register_failed_attempt (now : Z) (has_frame : bool) s
    : System encoding :=
  match MAX_FAILED_ATTEMPTS cfg with
  | None => s
  | Some max_failed =>
    let appended := default [] (failed_attempts s !! "unknown") ++ [now] in
    let one_hour_ago := now - Time.hours 1 in
    let window := List.filter (fun attempt => one_hour_ago <? attempt) appended in
    let s1 := set_failed_attempts (<["unknown" := window]> (failed_attempts s)) s in
    let s2 :=
      if max_failed <=? Z.of_nat (length window) then
        match LOCKOUT_TIME cfg with
        | Some lockout =>
          set_locked_until
            (<["unknown" := now + Time.seconds lockout]> (locked_until s1)) s1
        | None => s1
        end
      else s1 in
    if SAVE_UNKNOWN_FACES cfg && has_frame then emit EvSaveUnknownFace s2 else s2
  end.

(** the read of line 734: [system.failed_attempts.get('unknown', [])] *)
Definition read_failure_window s : list Z :=
  default [] (failed_attempts s !! "unknown").

End Ledgers.

(** ** The submitter *)

Section Submitter.
Context {encoding : Type} `{Backend}.
Implicit Type s : System encoding.

Definition max_retries : nat := 3.

(** The body of [for attempt in range(max_retries)]. A response that is
    not 200 falls through to the next attempt at once; the sleep sits in
    the [except requests.RequestException] handler only. The body of a
    200 response is taken to parse ([response.json()] does not raise). *)
Fixpoint send_attempts (attempts : list nat)
    (employee_id employee_name : string) (timestamp : Z) s
    : (bool * option store_result) * System encoding :=
  match attempts with
  | [] => ((false, None), s)
  | attempt :: rest =>
    let r := store (posts s) in
    let s1 := emit (EvPost employee_id employee_name timestamp) s in
    match r with
    | Response status_code result =>
      if status_code =? 200 then ((true, Some result), s1)
      else send_attempts rest employee_id employee_name timestamp s1
    | RequestException =>
      send_attempts rest employee_id employee_name timestamp
        (if (attempt <? max_retries - 1)%nat then emit (EvSleep 1) s1 else s1)
    end
  end.

Definition send_timecard_to_backend
    (employee_id employee_name : string) (timestamp : Z) s :=
  send_attempts (seq 0 max_retries) employee_id employee_name timestamp s.

End Submitter.

(** Observers of the trace. *)

Definition is_post (e : event) : bool :=
  match e with EvPost _ _ _ => true | _ => false end.



(** POSTs made in a trace *)
Definition store_calls (tr : list event) : nat :=
  length (List.filter is_post tr).

(** Observers of a response: the attempt succeeded (status 200), the
    attempt raised, the body echoed by a success. *)
Definition succeeded (r : response) : bool :=
  match r with
  | Response status_code _ => status_code =? 200
  | RequestException => false
  end.



Definition is_matcher_call (e : event) : bool :=
  match e with EvCompareFaces | EvFaceDistance => true | _ => false end.

(** ** The controller *)

Definition Qltb (x y : Q) : bool := negb (Qle_bool y x).

(** [np.argmin]: the index of the first least element. *)
Fixpoint argmin_from (best_i : nat) (best : Q) (i : nat) (l : list Q) : nat :=
  match l with
  | [] => best_i
  | x :: l' =>
    if Qltb x best then argmin_from i x (S i) l'
    else argmin_from best_i best (S i) l'
  end.

Definition argmin (l : list Q) : nat :=
  match l with
  | [] => 0%nat
  | x :: l' => argmin_from 0%nat x 1%nat l'
  end.

Definition Desconhecido : string := "Desconhecido".

Definition face_label : Type := string * color.

(** The clock reads made while one face is processed: in
    [is_employee_locked], in [can_register_again], in [is_work_hours] and
    in [register_failed_attempt]. *)
Record reads := mkReads {
  t_lock : Z;
  t_cooldown : Z;
  t_work : Z;
  t_fail : Z
}.

Section Controller.
Context {encoding : Type} `{Matcher encoding} `{Backend} (cfg : Config).
Implicit Type s : System encoding.

(** a dict in a boolean position: true when it is not empty *)
Definition truthy (c : gmap Z (string * string)) : bool :=
  (0 <? size c)%nat.

(** lines 356-359: the lookup is tried only when the cache is not empty
    and smaller than [MAX_CACHE_SIZE]. *)
Definition cache_lookup (enc : encoding) s : option (string * string) :=
  match encoding_cache s with
  | Some c =>
    if truthy c && (Z.of_nat (size c) <? getattr (MAX_CACHE_SIZE cfg) 1000)
    then c !! encoding_key enc
    else None
  | None => None
  end.

(** lines 384-386 *)
Definition cache_insert (enc : encoding) (name employee_id : string) s :=
  match encoding_cache s with
  | Some c =>
    if truthy c
    then set_encoding_cache (Some (<[encoding_key enc := (name, employee_id)]> c)) s
    else s
  | None => s
  end.

Definition out_of_hours_label (name : string) : face_label :=
  (name +:+ " (Fora do horário)", (0, 255, 255)).

Definition cooldown_label (name : string) (remaining_time : Q) : face_label :=
  (name +:+ " (Aguarde " +:+ pretty (Time.int_of remaining_time) +:+ "s)",
   getattr (COLOR_COOLDOWN cfg) (0, 255, 255)).

(** lines 404-411 *)
Definition notify_first_entry (employee_id name : string) (timestamp : Z)
    (result : option store_result) s :=
  if NOTIFY_ON_FIRST_ENTRY cfg then
    match result with
    | Some r =>
      if bool_decide (entry_type r = Some "entrada")
      then emit (EvNotify "first_entry" employee_id name timestamp) s
      else s
    | None => s
    end
  else s.

(** lines 388-418: what happens once a gallery candidate is accepted. *)
Definition decide_registration (current_time : Z) (rd : reads)
    (name employee_id : string) s : face_label * System encoding :=
  let '(allowed, s1) :=
    can_register_again cfg (t_lock rd) (t_cooldown rd) employee_id s in
  if allowed then
    if negb (is_work_hours cfg (t_work rd))
       && negb (getattr (ALLOW_AFTER_HOURS cfg) true)
    then (out_of_hours_label name, s1)
    else
      let '((success, result), s2) :=
        send_timecard_to_backend employee_id name current_time s1 in
      if success then
        ((name, COLOR_RECOGNIZED cfg),
         notify_first_entry employee_id name current_time result
           (mark_accepted employee_id current_time s2))
      else ((name, COLOR_RECOGNIZED cfg), s2)
  else
    let remaining_time :=
      (inject_Z (RECOGNITION_COOLDOWN cfg)
       - Time.total_seconds
           (current_time
            - default current_time (last_recognition s1 !! employee_id))%Z)%Q in
    (cooldown_label name remaining_time, s1).

(** lines 373-380: the candidate of least distance, accepted when the
    matcher's own verdict and the tolerance test both hold. The outer
    [None] is an [IndexError] ([matches], [known_names] or [known_ids]
    shorter than the distances); [Some None] is no acceptable candidate. *)
Definition gallery_candidate (enc : encoding) s
    : option (option (string * string)) :=
  let matches :=
    compare_faces (known_faces s) enc (FACE_RECOGNITION_TOLERANCE cfg) in
  let face_distances := face_distance (known_faces s) enc in
  if (0 <? length face_distances)%nat then
    let best_match_index := argmin face_distances in
    m ← matches !! best_match_index;
    d ← face_distances !! best_match_index;
    if m && Qltb d (FACE_RECOGNITION_TOLERANCE cfg) then
      name ← known_names s !! best_match_index;
      employee_id ← known_ids s !! best_match_index;
      Some (Some (name, employee_id))
    else Some None
  else Some None.

(** lines 364-418: the comparison against the gallery; both matcher
    functions are called first. *)
Definition match_gallery (current_time : Z) (rd : reads) (enc : encoding) s
    : option (face_label * System encoding) :=
  let s2 := emit EvFaceDistance (emit EvCompareFaces s) in
  candidate ← gallery_candidate enc s;
  match candidate with
  | Some (name, employee_id) =>
    Some (decide_registration current_time rd name employee_id
            (cache_insert enc name employee_id s2))
  | None => Some ((Desconhecido, COLOR_UNKNOWN cfg), s2)
  end.

(** lines 420-423 *)
Definition finish_face (rd : reads) (label : face_label) s
    : face_label * System encoding :=
  if bool_decide (label.1 = Desconhecido)
  then (label, register_failed_attempt cfg (t_fail rd) false s)
  else (label, s).

(** The body of [for face_encoding in face_encodings] (lines 350-423).
    A cache hit ends the iteration at once ([continue]). *)
Definition process_face (current_time : Z) (rd : reads) (enc : encoding) s
    : option (face_label * System encoding) :=
  if (0 <? length (known_faces s))%nat then
    match cache_lookup enc s with
    | Some (name, employee_id) => Some ((name, COLOR_RECOGNIZED cfg), s)
    | None =>
      '(label, s1) ← match_gallery current_time rd enc s;
      Some (finish_face rd label s1)
    end
  else Some (finish_face rd (Desconhecido, COLOR_UNKNOWN cfg) s).

(** [process_recognition]: [current_time] is read once, before the loop. *)
Fixpoint process_recognition (current_time : Z)
    (faces : list (encoding * reads)) s
    : option (list face_label * System encoding) :=
  match faces with
  | [] => Some ([], s)
  | (enc, rd) :: rest =>
    '(label, s1) ← process_face current_time rd enc s;
    '(labels, s2) ← process_recognition current_time rest s1;
    Some (label :: labels, s2)
  end.

End Controller.

(** ** The basic controller (src/facial_recognition_timecard.py) *)

Module Basic.

Record System {encoding : Type} := mkSystem {
  known_faces : list encoding;
  known_names : list string;
  known_ids : list string;
  last_recognition : gmap string Z;
  recognition_cooldown : Z;
  posts : nat;
  trace : list event
}.
Arguments System : clear implicits.
Arguments mkSystem {encoding}.

(** the clock reads of one iteration: in [can_register_again], for the
    [timestamp] sent, and for the cooldown entry written *)
Record reads := mkReads {
  t_cooldown : Z;
  t_stamp : Z;
  t_mark : Z
}.

Section Basic.
Context {encoding : Type} `{Matcher encoding} `{Backend}.
Implicit Type s : System encoding.

Definition emit (e : event) s :=
  mkSystem (known_faces s) (known_names s) (known_ids s)
           (last_recognition s) (recognition_cooldown s)
           (match e with EvPost _ _ _ => S (posts s) | _ => posts s end)
           (trace s ++ [e]).

Definition set_last_recognition (m : gmap string Z) s :=
  mkSystem (known_faces s) (known_names s) (known_ids s) m
           (recognition_cooldown s) (posts s) (trace s).

(** [__init__] after [load_known_faces] *)
Definition init_system (faces : list encoding) (names ids : list string) :=
  mkSystem faces names ids ∅ 10 0%nat [].

(** one attempt, no retry *)
Definition send_timecard_to_backend
    (employee_id employee_name : string) (timestamp : Z) s
    : (bool * option store_result) * System encoding :=
  let r := store (posts s) in
  let s1 := emit (EvPost employee_id employee_name timestamp) s in
  match r with
  | Response status_code result =>
    if status_code =? 200 then ((true, Some result), s1)
    else ((false, None), s1)
  | RequestException => ((false, None), s1)
  end.

Definition can_register_again (now : Z) (employee_id : string) s : bool :=
  match last_recognition s !! employee_id with
  | Some last =>
    Qle_bool (inject_Z (recognition_cooldown s)) (Time.total_seconds (now - last))
  | None => true
  end.

(** The body of [for face_encoding in self.face_encodings] (lines
    159-180). Both matcher functions are called before any test on
    the gallery; [None] is an [IndexError]. *)
Definition recognize_face (rd : reads) (enc : encoding) s
    : option (string * System encoding) :=
  let matches := compare_faces (known_faces s) enc (6 # 10) in
  let s1 := emit EvCompareFaces s in
  let face_distances := face_distance (known_faces s) enc in
  let s2 := emit EvFaceDistance s1 in
  if (0 <? length face_distances)%nat then
    let best_match_index := argmin face_distances in
    m ← matches !! best_match_index;
    d ← face_distances !! best_match_index;
    if m && Qltb d (6 # 10) then
      name ← known_names s2 !! best_match_index;
      employee_id ← known_ids s2 !! best_match_index;
      if negb (bool_decide (employee_id = EmptyString))
         && can_register_again (t_cooldown rd) employee_id s2
      then
        let '((success, result), s3) :=
          send_timecard_to_backend employee_id name (t_stamp rd) s2 in
        if success then
          Some (name,
                set_last_recognition
                  (<[employee_id := t_mark rd]> (last_recognition s3)) s3)
        else Some (name, s3)
      else Some (name, s2)
    else Some (Desconhecido, s2)
  else Some (Desconhecido, s2).

End Basic.

End Basic.

(** ** Concrete data for the examples *)

Module Sample.

(** encodings are integers; the distance of two of them is a tenth of
    their difference, and [compare_faces] thresholds the distance, as
    the library does. *)
Definition distance (probe known : Z) : Q := Z.abs (known - probe) # 10.

Definition matcher : Matcher Z := {|
  compare_faces gallery probe tolerance :=
    map (fun known => Qle_bool (distance probe known) tolerance) gallery;
  face_distance gallery probe := map (distance probe) gallery;
  encoding_key probe := probe
|}.

Definition ok_body : store_result := mkResult (Some "OK") (Some "entrada").

Definition store_up : Backend := {| store _ := Response 200 ok_body |}.



Definition store_down : Backend := {| store _ := RequestException |}.

Definition at_hour (h : Z) : Z := Time.hours h.
Definition at_sec (n : Z) : Z := Time.seconds n.

(** work window 07:00-19:00, no registration after hours, lockout of
    300 s after 2 failures, cooldown 10 s, cache of at most 1 entry *)
Definition config : Config :=
  mkConfig (6 # 10) 10 (Some (at_hour 7)) (Some (at_hour 19)) (Some false)
           (Some 2) (Some 300) false true (Some 1) false
           (0, 255, 0) (0, 0, 255) None.

(** the same, registration allowed at any hour *)
Definition config_open : Config :=
  mkConfig (6 # 10) 10 (Some (at_hour 7)) (Some (at_hour 19)) (Some true)
           (Some 2) (Some 300) false true (Some 1) false
           (0, 255, 0) (0, 0, 255) None.

(** one employee, Ana, id E1, encoding 100 *)
Definition one_employee : System Z :=
  init_system config [100] ["Ana"] ["E1"].

(** one employee whose id is the string "unknown" *)
Definition employee_unknown : System Z :=
  init_system config [100] ["Ana"] ["unknown"].

Definition empty_gallery : System Z := init_system config [] [] [].

(** two unresolved faces, at 0 s and at 1 s: the lockout trips at 1 s *)
Definition two_failures {encoding} (s : System encoding) : System encoding :=
  register_failed_attempt config (at_sec 1) false
    (register_failed_attempt config (at_sec 0) false s).

Definition noon : Z := at_hour 12.
Definition evening : Z := at_hour 20.

Definition all_at (t : Z) : reads := mkReads t t t t.

(** two unresolved faces at noon and one second later *)
Definition locked_at_noon {encoding} (s : System encoding) : System encoding :=
  register_failed_attempt config (noon + at_sec 1) false
    (register_failed_attempt config noon false s).

(** Ana was registered at 20:00 *)
Definition ana_at_evening : System Z := mark_accepted "E1" evening one_employee.


Definition basic_empty_gallery : Basic.System Z := Basic.init_system [] [] [].

End Sample.

(** ** Unresolved faces *)

(** A face that [process_recognition] leaves unknown: the gallery is
    empty, or the cache does not answer and the gallery has no acceptable
    candidate. *)
Definition unresolved {encoding : Type} `{Matcher encoding}
    (cfg : Config) (s : System encoding) (enc : encoding) : Prop :=
  known_faces s = []
  \/ (cache_lookup cfg enc s = None /\ gallery_candidate cfg enc s = Some None).

(** two states with the same gallery and the same cache *)
Definition same_gallery {encoding : Type} (s s' : System encoding) : Prop :=
  known_faces s' = known_faces s /\ known_names s' = known_names s
  /\ known_ids s' = known_ids s /\ encoding_cache s' = encoding_cache s.


(** the clock reads of [register_failed_attempt] over the faces of a frame *)
Definition failure_times {encoding : Type} (faces : list (encoding * reads))
    : list Z :=
  map (fun face => t_fail face.2) faces.

(** ** Retention of the backups (cleanup_old_backups) *)

Module Backups.

(** [s.startswith(prefix)] *)
Definition startswith (s pre : string) : bool := String.prefix pre s.

(** [s.endswith(suffix)] *)
Definition endswith (s suf : string) : bool :=
  (String.length suf <=? String.length s)%nat
  && String.eqb
       (String.substring (String.length s - String.length suf)
                         (String.length suf) s)
       suf.

(** the test of line 186 *)
Definition is_backup (file : string) : bool :=
  startswith file "face_encodings_backup_" && endswith file ".pkl".

(** A directory entry: the name returned by [os.listdir(BACKUP_DIR)] and
    the [os.path.getctime] of that file. Every path handled by the
    function is [os.path.join(BACKUP_DIR, name)], so a file is identified
    by its name. *)
Definition entry : Type := string * Q.

(** lines 184-188 *)
Definition backup_files (listing : list entry) : list entry :=
  List.filter (fun f => is_backup f.1) listing.

(** [list.sort(key=lambda x: x[1], reverse=True)]: newest first; the sort
    is stable, entries of equal time keep their relative order. *)
Fixpoint insert_newest_first (x : entry) (sorted : list entry) : list entry :=
  match sorted with
  | [] => [x]
  | y :: rest =>
    if Qltb x.2 y.2 then y :: insert_newest_first x rest
    else x :: y :: rest
  end.

Fixpoint sort_newest_first (l : list entry) : list entry :=
  match l with
  | [] => []
  | x :: rest => insert_newest_first x (sort_newest_first rest)
  end.

(** the slice [l[m:]], for any integer [m] *)
Definition slice_from {A : Type} (m : Z) (l : list A) : list A :=
  drop (Z.to_nat (if m <? 0 then Z.max 0 (Z.of_nat (length l) + m) else m)) l.

(** the files handed to [os.remove], in order (line 194) *)
Definition doomed (max_backups : Z) (listing : list entry) : list entry :=
  slice_from max_backups (sort_newest_first (backup_files listing)).

(** The loop of lines 194-196. [remove_ok] says whether [os.remove]
    succeeds on a file; the first failure raises and ends the loop (the
    exception is caught and logged by the function). The result lists the
    files removed. *)
Fixpoint remove_all (remove_ok : string -> bool) (files : list entry)
    : list string :=
  match files with
  | [] => []
  | f :: rest =>
    if remove_ok f.1 then f.1 :: remove_all remove_ok rest else []
  end.

(** [cleanup_old_backups]; [max_backups] is [None] when the configuration
    has no [MAX_BACKUPS]. The listing of the directory and the creation
    times are taken to succeed. *)
Definition cleanup_old_backups (max_backups : option Z)
    (remove_ok : string -> bool) (listing : list entry) : list string :=
  match max_backups with
  | None => []
  | Some m => remove_all remove_ok (doomed m listing)
  end.

End Backups.

(** a list of entries in which no entry is newer than an entry before it *)
Fixpoint newest_first (l : list Backups.entry) : Prop :=
  match l with
  | [] => True
  | x :: rest => Forall (fun y => (y.2 <= x.2)%Q) rest /\ newest_first rest
  end.

(** ** The attendance store (src/timecard_backend.py) *)

Module Store.

(** a row of the table [time_card] *)
Record TimeCard := mkTimeCard {
  tc_id : Z;
  tc_employee_id : string;
  tc_employee_name : string;
  tc_timestamp : Z;
  tc_recognition_method : string;
  tc_entry_type : option string;     (* nullable column *)
  tc_created_at : Z
}.

(** The two tables: [employee] maps an id to a name and a creation time;
    [time_card] is kept in insertion order. *)
Record Database := mkDatabase {
  employees : gmap string (string * Z);
  timecards : list TimeCard
}.

Definition empty_db : Database := mkDatabase ∅ [].

(** the later of two rows; the earlier row wins a tie *)
Definition later (a b : TimeCard) : TimeCard :=
  if tc_timestamp a <? tc_timestamp b then b else a.

(** [TimeCard.query.filter_by(employee_id=...).order_by(timestamp.desc()).first()].
    SQL leaves the order of rows of equal timestamp open; here the row
    inserted first is taken. *)
Definition last_record (employee_id : string) (db : Database) : option TimeCard :=
  fold_left
    (fun acc tc =>
       if bool_decide (tc_employee_id tc = employee_id)
       then Some (match acc with Some a => later a tc | None => tc end)
       else acc)
    (timecards db) None.

(** [determine_entry_type] *)
Definition determine_entry_type (employee_id : string) (db : Database) : string :=
  match last_record employee_id db with
  | None => "entrada"
  | Some r =>
    if bool_decide (tc_entry_type r = Some "saida") then "entrada" else "saida"
  end.

(** [s.replace('Z', '+00:00')]; the letter Z is the character 90 *)
Fixpoint replace_Z (s : string) : string :=
  match s with
  | EmptyString => EmptyString
  | String c rest =>
    if Ascii.eqb c (Ascii.ascii_of_nat 90) then "+00:00" +:+ replace_Z rest
    else String c (replace_Z rest)
  end.

(** [s.upper()], on ASCII letters *)
Definition upper_ascii (c : Ascii.ascii) : Ascii.ascii :=
  let n := Ascii.nat_of_ascii c in
  if (97 <=? n)%nat && (n <=? 122)%nat then Ascii.ascii_of_nat (n - 32) else c.

Fixpoint upper (s : string) : string :=
  match s with
  | EmptyString => EmptyString
  | String c rest => String (upper_ascii c) (upper rest)
  end.

(** the integer primary key given to a new row: 1 in an empty table, one
    more than the largest key otherwise *)
Definition next_id (db : Database) : Z :=
  match timecards db with
  | [] => 1
  | tc :: rest => 1 + fold_left Z.max (map tc_id rest) (tc_id tc)
  end.

Definition required_fields : list string :=
  ["employee_id"; "employee_name"; "timestamp"].

(** an answer of the route: an error with its status, or the 200 answer
    with its message and the row written *)
Inductive reply :=
| Error (status : Z) (error : string)
| Registered (message : string) (data : TimeCard).

(** [register_timecard]. [data] is [request.get_json()]: no body, or an
    object whose values are strings. [fromisoformat] is
    [datetime.fromisoformat] ([None]: [ValueError]); [now_employee] and
    [now_timecard] are the [datetime.utcnow] defaults of the two rows. The
    database itself is taken to work (no exception reaches the handler
    that answers 500). *)
Definition register_timecard (fromisoformat : string -> option Z)
    (now_employee now_timecard : Z)
    (data : option (gmap string string)) (db : Database) : reply * Database :=
  match data with
  | None => (Error 400 "Dados não fornecidos", db)
  | Some d =>
    if bool_decide (d = ∅) then (Error 400 "Dados não fornecidos", db)
    else
      match List.find (fun field => bool_decide (d !! field = None)) required_fields with
      | Some field => (Error 400 ("Campo obrigatório: " +:+ field), db)
      | None =>
        let employee_id := default EmptyString (d !! "employee_id") in
        let employee_name := default EmptyString (d !! "employee_name") in
        let timestamp_str := default EmptyString (d !! "timestamp") in
        let recognition_method := default "facial" (d !! "recognition_method") in
        match fromisoformat (replace_Z timestamp_str) with
        | None => (Error 400 "Formato de timestamp inválido", db)
        | Some timestamp =>
          let employees' :=
            match employees db !! employee_id with
            | Some _ => employees db
            | None => <[employee_id := (employee_name, now_employee)]> (employees db)
            end in
          let entry_type := determine_entry_type employee_id db in
          let timecard :=
            mkTimeCard (next_id db) employee_id employee_name timestamp
                       recognition_method (Some entry_type) now_timecard in
          (Registered ("Ponto registrado com sucesso - " +:+ upper entry_type)
                      timecard,
           mkDatabase employees' (timecards db ++ [timecard]))
        end
      end
  end.

(** [get_employee_status]: the status and the last row *)
Definition get_employee_status (employee_id : string) (db : Database)
    : string * option TimeCard :=
  match last_record employee_id db with
  | None => ("nunca_registrou", None)
  | Some r =>
    (if bool_decide (tc_entry_type r = Some "entrada") then "dentro" else "fora",
     Some r)
  end.

(** the rows of one employee, in insertion order *)
Definition rows_of (employee_id : string) (db : Database) : list TimeCard :=
  List.filter (fun tc => bool_decide (tc_employee_id tc = employee_id))
              (timecards db).

End Store.

(** ** Registration in the basic controller *)

Module Registry.

(** [register_new_employee(employee_id, name, image_path)].
    [face_encodings] is what [face_recognition.face_encodings] returns for
    the image, [None] when loading or encoding raises. Writing the pickle
    file does not change the object. *)
Definition register_new_employee {encoding : Type}
    (employee_id name : string) (face_encodings : option (list encoding))
    (s : Basic.System encoding) : bool * Basic.System encoding :=
  match face_encodings with
  | None => (false, s)
  | Some [] => (false, s)
  | Some (first :: _) =>
    (true,
     Basic.mkSystem (Basic.known_faces s ++ [first])
                    (Basic.known_names s ++ [name])
                    (Basic.known_ids s ++ [employee_id])
                    (Basic.last_recognition s) (Basic.recognition_cooldown s)
                    (Basic.posts s) (Basic.trace s))
  end.

End Registry.

(** ** Validation of the configuration (src/advanced_config.py) *)

Module Validation.

(** The errors collected by [validate_config]; the function raises
    [ValueError] exactly when the list is not empty. [detection_model] is
    [FACE_DETECTION_MODEL]. *)
Definition validate_config (cfg : Config) (detection_model : string)
    : list string :=
  (if Qle_bool 0 (FACE_RECOGNITION_TOLERANCE cfg)
      && Qle_bool (FACE_RECOGNITION_TOLERANCE cfg) 1
   then [] else ["FACE_RECOGNITION_TOLERANCE deve estar entre 0.0 e 1.0"])
  ++ (if bool_decide (detection_model = "hog")
         || bool_decide (detection_model = "cnn")
      then [] else ["FACE_DETECTION_MODEL deve ser 'hog' ou 'cnn'"])
  ++ (match WORK_START_TIME cfg, WORK_END_TIME cfg with
      | Some start, Some stop =>
        if stop <=? start
        then ["WORK_START_TIME deve ser anterior a WORK_END_TIME"] else []
      | _, _ => []
      end)
  ++ (if RECOGNITION_COOLDOWN cfg <? 0
      then ["RECOGNITION_COOLDOWN deve ser >= 0"] else []).

End Validation.

(** ** More concrete data *)

Module Demo.

(** a parser of timestamps for the examples: decimal digits only *)
Fixpoint digits (s : string) (acc : Z) : option Z :=
  match s with
  | EmptyString => Some acc
  | String c rest =>
    let n := Ascii.nat_of_ascii c in
    if (48 <=? n)%nat && (n <=? 57)%nat
    then digits rest (10 * acc + Z.of_nat (n - 48))
    else None
  end.

Definition parse (s : string) : option Z :=
  match s with
  | EmptyString => None
  | _ => digits s 0
  end.

Definition punch (employee_id name timestamp : string) : option (gmap string string) :=
  Some (<["employee_id" := employee_id]>
          (<["employee_name" := name]> {[ "timestamp" := timestamp ]})).

(** Ana punches at 100 *)
Definition after_first_punch : Store.Database :=
  (Store.register_timecard parse 0 0 (punch "E1" "Ana" "100") Store.empty_db).2.

(** a backup directory: three backups and two other files *)
Definition listing : list Backups.entry :=
  [("face_encodings_backup_20240101_000000.pkl", 10 # 1);
   ("notes.txt", 50 # 1);
   ("face_encodings_backup_20240103_000000.pkl", 30 # 1);
   ("face_encodings_backup_20240102_000000.pkl", 20 # 1);
   ("face_encodings_backup_old.pkl.tmp", 5 # 1)].

Definition always (_ : string) : bool := true.

(** three unresolved faces, seen at noon and one and two seconds later *)
Definition three_strangers : list (Z * reads) :=
  [(900, Sample.all_at Sample.noon);
   (901, Sample.all_at (Sample.noon + Sample.at_sec 1));
   (902, Sample.all_at (Sample.noon + Sample.at_sec 2))].





(** the basic controller with Ana registered *)
Definition basic_with_ana : Basic.System Z :=
  (Registry.register_new_employee "E1" "Ana" (Some [100]) Sample.basic_empty_gallery).2.

End Demo.

(** * Properties *)

(** ** Ledger lemmas *)

Lemma Qle_bool_total_seconds (cooldown : Z) (td : Z) :
  Qle_bool (inject_Z cooldown) (Time.total_seconds td)
  = (Time.seconds cooldown <=? td).
Proof.
  unfold Qle_bool, Time.total_seconds, Time.seconds, inject_Z; simpl.
  now rewrite Z.mul_1_r.
Qed.

Section LedgerFacts.
Context {encoding : Type}.
Implicit Type s : System encoding.





(** what [register_failed_attempt] leaves in the window *)
Lemma register_failed_attempt_window cfg now has_frame max_failed s :
  MAX_FAILED_ATTEMPTS cfg = Some max_failed ->
  read_failure_window (register_failed_attempt cfg now has_frame s)
  = List.filter (fun attempt => now - Time.hours 1 <? attempt)
                (read_failure_window s ++ [now]).
Proof.
  intros Hm. unfold register_failed_attempt, read_failure_window. rewrite Hm.
  destruct (_ <=? _); [destruct (LOCKOUT_TIME cfg)|];
    destruct (SAVE_UNKNOWN_FACES cfg && has_frame); simpl;
    now rewrite lookup_insert_eq.
Qed.

(** what [register_failed_attempt] leaves in the lockout entry *)
Lemma register_failed_attempt_lock cfg now has_frame max_failed s :
  MAX_FAILED_ATTEMPTS cfg = Some max_failed ->
  locked_until (register_failed_attempt cfg now has_frame s) !! "unknown"
  = if max_failed
       <=? Z.of_nat (length (read_failure_window
                               (register_failed_attempt cfg now has_frame s)))
    then match LOCKOUT_TIME cfg with
         | Some lockout => Some (now + Time.seconds lockout)
         | None => locked_until s !! "unknown"
         end
    else locked_until s !! "unknown".
Proof.
  intros Hm. rewrite (register_failed_attempt_window _ _ _ _ _ Hm).
  unfold register_failed_attempt, read_failure_window. rewrite Hm.
  destruct (_ <=? _); [destruct (LOCKOUT_TIME cfg)|];
    destruct (SAVE_UNKNOWN_FACES cfg && has_frame); simpl;
    rewrite ?lookup_insert_eq; reflexivity.
Qed.

End LedgerFacts.

(** ** C1: the cooldown ledger *)




(** ** C2: further failures while locked *)

(** C2, amended: [register_failed_attempt] never looks at an existing
    lockout. After the call the deadline is [now + LOCKOUT_TIME] whenever
    the pruned window, the new failure included, holds at least
    [MAX_FAILED_ATTEMPTS] entries, and is the old value otherwise: a
    failure recorded while the lockout is active moves the deadline. *)
Theorem C2_failure_rearms_lockout {encoding : Type}
    (cfg : Config) (s : System encoding) (now : Z) (has_frame : bool)
    (max_failed lockout : Z) :
  MAX_FAILED_ATTEMPTS cfg = Some max_failed ->
  LOCKOUT_TIME cfg = Some lockout ->
  let s' := register_failed_attempt cfg now has_frame s in
  (max_failed <= Z.of_nat (length (read_failure_window s')) ->
     locked_until s' !! "unknown" = Some (now + Time.seconds lockout))
  /\ (Z.of_nat (length (read_failure_window s')) < max_failed ->
      locked_until s' !! "unknown" = locked_until s !! "unknown").
Proof.
  intros Hm Hl s'. subst s'.
  rewrite (register_failed_attempt_lock _ _ _ _ _ Hm), Hl.
  split; intros Hlen.
  - apply Z.leb_le in Hlen. now rewrite Hlen.
  - apply Z.leb_gt in Hlen. now rewrite Hlen.
Qed.

(** Locked until 301 s; a third failure at 2 s moves the deadline to 302 s. *)
Lemma C2_witness :
  locked_until (Sample.two_failures Sample.one_employee) !! "unknown"
  = Some (Sample.at_sec 301)
  /\ locked_until
       (register_failed_attempt Sample.config (Sample.at_sec 2) false
          (Sample.two_failures Sample.one_employee)) !! "unknown"
     = Some (Sample.at_sec 302).
Proof.
  split; [reflexivity|].
  apply (C2_failure_rearms_lockout Sample.config
           (Sample.two_failures Sample.one_employee) (Sample.at_sec 2) false
           2 300 eq_refl eq_refl).
  vm_compute. discriminate.
Defined.

(** C2 as stated fails: a failure recorded while locked changes the
    deadline. *)
Lemma C2_counterexample :
  ~ (forall (cfg : Config) (s : System Z) (now unlock_at : Z),
       locked_until s !! "unknown" = Some unlock_at ->
       now <= unlock_at ->
       locked_until (register_failed_attempt cfg now false s) !! "unknown"
       = Some unlock_at).
Proof.
  intros H.
  specialize (H Sample.config (Sample.two_failures Sample.one_employee)
                (Sample.at_sec 2) (Sample.at_sec 301) eq_refl).
  assert (Hle : Sample.at_sec 2 <= Sample.at_sec 301) by (vm_compute; discriminate).
  specialize (H Hle). vm_compute in H. discriminate.
Qed.

(** ** C4: lazy expiry of the lockout *)

(** C4, amended: the lockout is cleared lazily by [is_employee_locked]
    alone. Its first call with [now] past the deadline deletes the lockout
    entry and the failure history of the scope and answers [False], and so
    does every later call. [register_failed_attempt] does not clear
    anything: it keeps (or overwrites) the lockout entry, and every earlier
    failure of the last hour stays in the window. *)
Theorem C4_lazy_expiry {encoding : Type}
    (cfg : Config) (s : System encoding) (unlock_at now max_failed : Z) :
  locked_until s !! "unknown" = Some unlock_at ->
  unlock_at < now ->
  MAX_FAILED_ATTEMPTS cfg = Some max_failed ->
  (let r := is_employee_locked now "unknown" s in
   r.1 = false
   /\ locked_until r.2 !! "unknown" = None
   /\ failed_attempts r.2 !! "unknown" = None
   /\ read_failure_window r.2 = []
   /\ forall later, (is_employee_locked later "unknown" r.2).1 = false)
  /\ (forall has_frame,
        let s' := register_failed_attempt cfg now has_frame s in
        locked_until s' !! "unknown" <> None
        /\ forall t, In t (read_failure_window s) -> now - Time.hours 1 < t ->
                     In t (read_failure_window s')).
Proof.
  intros Hu Hlt Hm. split.
  - unfold is_employee_locked. rewrite Hu.
    apply Z.ltb_lt in Hlt. rewrite Hlt. simpl.
    unfold read_failure_window; simpl. rewrite !lookup_delete_eq. auto.
  - intros has_frame s'. subst s'. split.
    + rewrite (register_failed_attempt_lock _ _ _ _ _ Hm), Hu.
      destruct (_ <=? _); [destruct (LOCKOUT_TIME cfg)|]; discriminate.
    + intros t Hin Ht.
      rewrite (register_failed_attempt_window _ _ _ _ _ Hm).
      apply filter_In. split.
      * apply in_or_app. now left.
      * now apply Z.ltb_lt.
Qed.

(** The lockout of 301 s has expired at 400 s: [is_employee_locked]
    clears it, [register_failed_attempt] keeps the failure of 1 s. *)
Lemma C4_witness :
  (is_employee_locked (Sample.at_sec 400) "unknown"
     (Sample.two_failures Sample.one_employee)).1 = false
  /\ In (Sample.at_sec 1)
        (read_failure_window
           (register_failed_attempt Sample.config (Sample.at_sec 400) false
              (Sample.two_failures Sample.one_employee))).
Proof.
  assert (Hlt : Sample.at_sec 301 < Sample.at_sec 400) by reflexivity.
  destruct (C4_lazy_expiry Sample.config
              (Sample.two_failures Sample.one_employee)
              (Sample.at_sec 301) (Sample.at_sec 400) 2 eq_refl Hlt eq_refl)
    as [Hlocked Hfail].
  split.
  - apply Hlocked.
  - apply (Hfail false).
    + vm_compute. right. left. reflexivity.
    + reflexivity.
Defined.

(** C4 as stated fails for [register_failed_attempt]: called after the
    deadline, it leaves the earlier failures in the window. *)
Lemma C4_counterexample :
  ~ (forall (cfg : Config) (s : System Z) (now unlock_at : Z),
       locked_until s !! "unknown" = Some unlock_at ->
       unlock_at < now ->
       Forall (fun t => t = now)
              (read_failure_window (register_failed_attempt cfg now false s))).
Proof.
  intros H.
  assert (Hlt : Sample.at_sec 301 < Sample.at_sec 400) by reflexivity.
  specialize (H Sample.config (Sample.two_failures Sample.one_employee)
                (Sample.at_sec 400) (Sample.at_sec 301) eq_refl Hlt).
  vm_compute in H. inversion H as [|? ? Habs _]. discriminate.
Qed.

(** ** C8: freshness of the failure window *)

(** C8, amended: the window is pruned by [register_failed_attempt] only.
    Right after a failure recorded at [now], every timestamp of the window
    is later than [now] minus one hour; a read made afterwards returns the
    window as that call left it, whatever the time of the read. *)
Theorem C8_window_fresh_after_failure {encoding : Type}
    (cfg : Config) (s : System encoding) (now max_failed : Z) (has_frame : bool) :
  MAX_FAILED_ATTEMPTS cfg = Some max_failed ->
  Forall (fun t => now - Time.hours 1 < t)
         (read_failure_window (register_failed_attempt cfg now has_frame s))
  /\ In now (read_failure_window (register_failed_attempt cfg now has_frame s)).
Proof.
  intros Hm. rewrite (register_failed_attempt_window _ _ _ _ _ Hm). split.
  - apply Forall_forall. intros t Ht. apply list_elem_of_In, filter_In in Ht.
    now apply Z.ltb_lt.
  - apply filter_In. split.
    + apply in_or_app. right. now left.
    + apply Z.ltb_lt. unfold Time.hours. lia.
Qed.

Lemma C8_witness :
  Forall (fun t => Sample.at_sec 1 - Time.hours 1 < t)
         (read_failure_window (Sample.two_failures Sample.one_employee)).
Proof.
  apply (C8_window_fresh_after_failure Sample.config
           (register_failed_attempt Sample.config (Sample.at_sec 0) false
              Sample.one_employee)
           (Sample.at_sec 1) 2 false eq_refl).
Defined.

(** C8 as stated fails: a failure is recorded at 0 h and the window is read
    at 2 h; the timestamp read is more than one hour old. *)
Lemma C8_counterexample :
  ~ (forall (cfg : Config) (s : System Z) (now_failure now_read : Z),
       now_failure <= now_read ->
       Forall (fun t => now_read - Time.hours 1 < t)
              (read_failure_window
                 (register_failed_attempt cfg now_failure false s))).
Proof.
  intros H.
  assert (Hle : Sample.at_hour 0 <= Sample.at_hour 2) by (vm_compute; discriminate).
  specialize (H Sample.config Sample.one_employee
                (Sample.at_hour 0) (Sample.at_hour 2) Hle).
  vm_compute in H. inversion H as [|? ? Habs _]. discriminate.
Qed.

(** ** C6: the retrying submitter *)






(** ** Frame lemmas of the controller *)

Lemma string_length_app (a b : string) :
  String.length (a +:+ b) = (String.length a + String.length b)%nat.
Proof. induction a as [|c a IH]; simpl; [reflexivity|now rewrite IH]. Qed.

Section ControllerFacts.
Context {encoding : Type} `{Matcher encoding} `{Backend} (cfg : Config).
Implicit Type s : System encoding.

Lemma out_of_hours_label_known name :
  (out_of_hours_label name).1 <> Desconhecido.
Proof.
  intros E. apply (f_equal String.length) in E. simpl in E.
  rewrite string_length_app in E. simpl in E. lia.
Qed.

Lemma cooldown_label_known name remaining :
  (cooldown_label cfg name remaining).1 <> Desconhecido.
Proof.
  unfold cooldown_label, Desconhecido. simpl fst.
  destruct name as [|c name]; [discriminate|].
  intros E. apply (f_equal String.length) in E.
  change (String c name) with (EmptyString +:+ String c name) in E.
  rewrite !string_length_app in E.
  change (String.length " (Aguarde ") with 10%nat in E.
  change (String.length "Desconhecido") with 12%nat in E.
  change (String.length "s)") with 2%nat in E. simpl in E. lia.
Qed.

Lemma is_employee_locked_frame now I s :
  let s' := (is_employee_locked now I s).2 in
  last_recognition s' = last_recognition s
  /\ encoding_cache s' = encoding_cache s
  /\ posts s' = posts s
  /\ trace s' = trace s.
Proof.
  unfold is_employee_locked.
  destruct (locked_until s !! I) as [u|]; [destruct (u <? now)|];
    simpl; auto.
Qed.

Lemma can_register_again_state now_lock now I s :
  (can_register_again cfg now_lock now I s).2
  = (is_employee_locked now_lock I s).2.
Proof.
  unfold can_register_again.
  destruct (is_employee_locked now_lock I s) as [[] s1]; simpl;
    [reflexivity|].
  destruct (last_recognition s1 !! I); reflexivity.
Qed.

(** the verdict of [can_register_again] reads the two ledgers only *)
Lemma can_register_again_ledgers now_lock now I s s0 :
  locked_until s = locked_until s0 ->
  last_recognition s = last_recognition s0 ->
  (can_register_again cfg now_lock now I s).1
  = (can_register_again cfg now_lock now I s0).1.
Proof.
  intros Hl Hr. unfold can_register_again, is_employee_locked.
  rewrite Hl. destruct (locked_until s0 !! I) as [u|];
    [destruct (u <? now_lock)|]; simpl; rewrite ?Hr; try reflexivity;
    destruct (last_recognition s0 !! I); reflexivity.
Qed.

Lemma send_attempts_frame attempts id name ts s :
  let s' := (send_attempts attempts id name ts s).2 in
  last_recognition s' = last_recognition s
  /\ encoding_cache s' = encoding_cache s
  /\ trace s `prefix_of` trace s'.
Proof.
  revert s. induction attempts as [|a rest IH]; intros s; simpl.
  - auto.
  - destruct (store (posts s)) as [c b|]; [destruct (c =? 200)|]; simpl.
    + repeat split. now apply prefix_app_r.
    + destruct (IH (emit (EvPost id name ts) s)) as (-> & -> & Hp).
      repeat split. etransitivity; [|exact Hp]. now apply prefix_app_r.
    + destruct (a <? _)%nat;
        match goal with |- context [send_attempts rest id name ts ?x] =>
          destruct (IH x) as (-> & -> & Hp) end;
        (split; [reflexivity|split; [reflexivity|]]);
        (etransitivity; [|exact Hp]); simpl;
        rewrite <- ?app_assoc; now apply prefix_app_r.
Qed.

Lemma register_failed_attempt_frame now s :
  let s' := register_failed_attempt cfg now false s in
  last_recognition s' = last_recognition s
  /\ encoding_cache s' = encoding_cache s
  /\ posts s' = posts s
  /\ trace s' = trace s.
Proof.
  unfold register_failed_attempt. rewrite andb_false_r.
  destruct (MAX_FAILED_ATTEMPTS cfg); [|auto].
  destruct (_ <=? _); [destruct (LOCKOUT_TIME cfg)|]; simpl; auto.
Qed.

Lemma finish_face_known rd label s :
  label.1 <> Desconhecido -> finish_face cfg rd label s = (label, s).
Proof.
  intros Hn. unfold finish_face. now rewrite bool_decide_eq_false_2.
Qed.

Lemma finish_face_frame rd label s :
  let r := finish_face cfg rd label s in
  r.1 = label
  /\ encoding_cache r.2 = encoding_cache s
  /\ trace r.2 = trace s.
Proof.
  unfold finish_face. destruct (bool_decide _); simpl; [|auto].
  destruct (register_failed_attempt_frame (t_fail rd) s) as (_ & ? & _ & ?).
  auto.
Qed.

Lemma cache_insert_frame enc name id s :
  let s' := cache_insert enc name id s in
  locked_until s' = locked_until s
  /\ last_recognition s' = last_recognition s
  /\ posts s' = posts s
  /\ trace s' = trace s.
Proof.
  unfold cache_insert. destruct (encoding_cache s) as [c|]; [|auto].
  destruct (truthy c); simpl; auto.
Qed.

Lemma decide_registration_frame current_time rd name id s :
  let r := decide_registration cfg current_time rd name id s in
  encoding_cache r.2 = encoding_cache s
  /\ trace s `prefix_of` trace r.2.
Proof.
  unfold decide_registration.
  pose proof (can_register_again_state (t_lock rd) (t_cooldown rd) id s) as Hs.
  destruct (can_register_again cfg (t_lock rd) (t_cooldown rd) id s)
    as [allowed s1]; simpl in Hs; subst s1.
  destruct (is_employee_locked_frame (t_lock rd) id s) as (_ & Hc & _ & Ht).
  destruct allowed; [|simpl; rewrite Hc, Ht; split; reflexivity].
  destruct (negb (is_work_hours cfg (t_work rd)) && _);
    [simpl; rewrite Hc, Ht; split; reflexivity|].
  unfold send_timecard_to_backend.
  match goal with |- context [send_attempts ?a ?i ?n ?t ?x] =>
    pose proof (send_attempts_frame a i n t x) as (_ & Hc2 & Hp);
    destruct (send_attempts a i n t x) as [[success result] s2] end.
  simpl in Hc2, Hp. rewrite Hc in Hc2. rewrite Ht in Hp.
  destruct success; simpl; [|auto].
  unfold notify_first_entry.
  destruct (NOTIFY_ON_FIRST_ENTRY cfg); [|simpl; auto].
  destruct result as [r|]; [|simpl; auto].
  destruct (bool_decide _); simpl; [|auto].
  split; [assumption|]. now apply prefix_app_r.
Qed.

End ControllerFacts.

(** ** The per-face decision, path by path *)

Section Paths.
Context {encoding : Type} `{Matcher encoding} `{Backend} (cfg : Config).
Implicit Type s : System encoding.

Lemma gallery_nonempty s :
  known_faces s <> [] -> (0 <? length (known_faces s))%nat = true.
Proof. now destruct (known_faces s). Qed.

(** the state in which the registration is decided after a gallery match *)
Lemma process_face_gallery_match current_time rd enc name id s :
  known_faces s <> [] ->
  cache_lookup cfg enc s = None ->
  gallery_candidate cfg enc s = Some (Some (name, id)) ->
  process_face cfg current_time rd enc s
  = Some (finish_face cfg rd
            (decide_registration cfg current_time rd name id
               (cache_insert enc name id
                  (emit EvFaceDistance (emit EvCompareFaces s)))).1
            (decide_registration cfg current_time rd name id
               (cache_insert enc name id
                  (emit EvFaceDistance (emit EvCompareFaces s)))).2).
Proof.
  intros Hg Hc Hm. unfold process_face, match_gallery.
  rewrite (gallery_nonempty _ Hg), Hc, Hm. simpl.
  now destruct (decide_registration _ _ _ _ _ _).
Qed.



End Paths.

(** ** C10: a full cache is not consulted *)



(** ** C3: the size of the cache *)




(** From the state built by [__init__], no face ever fills the cache: an
    empty dict is false, and the insert is skipped. *)
Lemma cache_insert_empty {encoding : Type} (M : Matcher encoding)
    (enc : encoding) (name id : string) (s : System encoding) :
  encoding_cache s = Some ∅ \/ encoding_cache s = None ->
  cache_insert enc name id s = s.
Proof.
  unfold cache_insert. intros [-> | ->]; reflexivity.
Qed.

(** ** C5: outside work hours *)

Lemma store_calls_matcher_calls (tr : list event) :
  store_calls (tr ++ [EvCompareFaces; EvFaceDistance]) = store_calls tr.
Proof.
  unfold store_calls. rewrite List.filter_app, length_app. simpl. lia.
Qed.

(** C5, amended: the cooldown (with the lockout of the identity) is
    checked before the work window. For a face matched against the
    gallery outside work hours with [ALLOW_AFTER_HOURS] false, no POST is
    made and no cooldown entry is written; the label is the out-of-hours
    one when [can_register_again] allows the identity, and the wait label
    of the cooldown when it does not. *)
Theorem C5_cooldown_checked_before_work_hours {encoding : Type}
    (M : Matcher encoding) (B : Backend) (cfg : Config) (s : System encoding)
    (current_time : Z) (rd : reads) (enc : encoding) (name id : string) :
  known_faces s <> [] ->
  cache_lookup cfg enc s = None ->
  gallery_candidate cfg enc s = Some (Some (name, id)) ->
  is_work_hours cfg (t_work rd) = false ->
  getattr (ALLOW_AFTER_HOURS cfg) true = false ->
  exists label s',
    process_face cfg current_time rd enc s = Some (label, s')
    /\ posts s' = posts s
    /\ store_calls (trace s') = store_calls (trace s)
    /\ last_recognition s' = last_recognition s
    /\ label =
       if (can_register_again cfg (t_lock rd) (t_cooldown rd) id s).1
       then out_of_hours_label name
       else cooldown_label cfg name
              (inject_Z (RECOGNITION_COOLDOWN cfg)
               - Time.total_seconds
                   (current_time
                    - default current_time (last_recognition s !! id))%Z)%Q.
Proof.
  intros Hg Hl Hm Hw Ha.
  rewrite (process_face_gallery_match cfg current_time rd enc name id s Hg Hl Hm).
  set (s0 := cache_insert enc name id (emit EvFaceDistance (emit EvCompareFaces s))).
  destruct (cache_insert_frame enc name id
              (emit EvFaceDistance (emit EvCompareFaces s)))
    as (Hlk & Hlr & Hps & Htr).
  fold s0 in Hlk, Hlr, Hps, Htr. simpl in Hlk, Hlr, Hps, Htr.
  rewrite <- (can_register_again_ledgers cfg (t_lock rd) (t_cooldown rd) id
                s0 s Hlk Hlr).
  unfold decide_registration.
  pose proof (can_register_again_state cfg (t_lock rd) (t_cooldown rd) id s0) as Hs.
  destruct (is_employee_locked_frame (t_lock rd) id s0) as (H1 & _ & H3 & H4).
  destruct (can_register_again cfg (t_lock rd) (t_cooldown rd) id s0)
    as [allowed s1]. simpl in Hs. subst s1.
  rewrite Hw, Ha. simpl negb. simpl andb.
  destruct allowed; simpl fst; simpl snd.
  - rewrite finish_face_known by apply out_of_hours_label_known.
    eexists _, _. split; [reflexivity|].
    rewrite H1, H3, H4, Hlr, Hps, Htr, <- app_assoc.
    simpl app. rewrite store_calls_matcher_calls. auto.
  - rewrite finish_face_known by apply cooldown_label_known.
    eexists _, _. split; [reflexivity|].
    rewrite H1, H3, H4, Hlr, Hps, Htr, <- app_assoc.
    simpl app. rewrite store_calls_matcher_calls. auto.
Qed.

(** Scenario D: Ana is matched at 20:00, outside the window 07:00-19:00;
    with no cooldown entry the label is the out-of-hours one. *)
Lemma C5_witness :
  exists s',
    @process_face Z Sample.matcher Sample.store_up Sample.config
      Sample.evening (Sample.all_at Sample.evening) 100 Sample.one_employee
    = Some (out_of_hours_label "Ana", s')
    /\ posts s' = 0%nat
    /\ last_recognition s' = ∅.
Proof.
  assert (Hg : known_faces Sample.one_employee <> []) by discriminate.
  destruct (C5_cooldown_checked_before_work_hours Sample.matcher Sample.store_up
              Sample.config Sample.one_employee Sample.evening
              (Sample.all_at Sample.evening) 100 "Ana" "E1"
              Hg eq_refl eq_refl eq_refl eq_refl)
    as (label & s' & Hp & Hposts & _ & Hlast & Hlabel).
  exists s'. subst label. auto.
Defined.

(** C5 as stated fails: Ana was registered at 20:00 and is seen again 5 s
    later, outside work hours; the label is the wait label of the cooldown,
    not the out-of-hours one. *)
Lemma C5_counterexample :
  ~ (forall (M : Matcher Z) (B : Backend) (cfg : Config) (s : System Z)
            (current_time : Z) (rd : reads) (enc : Z) (name id : string),
       known_faces s <> [] ->
       cache_lookup cfg enc s = None ->
       gallery_candidate cfg enc s = Some (Some (name, id)) ->
       is_work_hours cfg (t_work rd) = false ->
       getattr (ALLOW_AFTER_HOURS cfg) true = false ->
       exists s',
         process_face cfg current_time rd enc s
         = Some (out_of_hours_label name, s')).
Proof.
  intros H.
  assert (Hg : known_faces Sample.ana_at_evening <> []) by discriminate.
  destruct (H Sample.matcher Sample.store_up Sample.config Sample.ana_at_evening
              (Sample.evening + Sample.at_sec 5)
              (Sample.all_at (Sample.evening + Sample.at_sec 5)) 100 "Ana" "E1"
              Hg eq_refl eq_refl eq_refl eq_refl) as [s' Hs'].
  vm_compute in Hs'. discriminate.
Qed.

(** the label shown in that run *)
Example C5_cooldown_label_shown :
  fst <$> @process_face Z Sample.matcher Sample.store_up Sample.config
            (Sample.evening + Sample.at_sec 5)
            (Sample.all_at (Sample.evening + Sample.at_sec 5)) 100
            Sample.ana_at_evening
  = Some ("Ana (Aguarde 5s)", (0, 255, 255)).
Proof. vm_compute. reflexivity. Qed.

(** ** C7: the empty gallery *)

(** C7, amended: with an empty gallery every face comes out unknown and
    [argmin] is never taken of an empty array. The advanced controller
    tests the gallery first and calls neither matcher function. The basic
    controller calls [compare_faces] and [face_distance] on the empty
    gallery and relies on the test [len(face_distances) > 0]. *)
Theorem C7_empty_gallery {encoding : Type}
    (M : Matcher encoding) (B : Backend) (cfg : Config)
    (s : System encoding) (b : Basic.System encoding)
    (current_time : Z) (rd : reads) (brd : Basic.reads) (enc : encoding) :
  known_faces s = [] ->
  Basic.known_faces b = [] ->
  face_distance [] enc = [] ->
  (exists s',
     process_face cfg current_time rd enc s
     = Some ((Desconhecido, COLOR_UNKNOWN cfg), s')
     /\ trace s' = trace s)
  /\ (exists b',
        Basic.recognize_face brd enc b = Some (Desconhecido, b')
        /\ Basic.trace b' = Basic.trace b ++ [EvCompareFaces; EvFaceDistance]
        /\ Basic.posts b' = Basic.posts b).
Proof.
  intros Hs Hb Hd. split.
  - unfold process_face, finish_face. rewrite Hs. simpl.
    eexists. split; [reflexivity|].
    apply (register_failed_attempt_frame cfg (t_fail rd) s).
  - unfold Basic.recognize_face. rewrite Hb, Hd. simpl.
    eexists. split; [reflexivity|]. simpl.
    now rewrite <- app_assoc.
Qed.

Lemma C7_witness :
  (exists s',
     @process_face Z Sample.matcher Sample.store_up Sample.config
       Sample.noon (Sample.all_at Sample.noon) 100 Sample.empty_gallery
     = Some ((Desconhecido, (0, 0, 255)), s')
     /\ trace s' = [])
  /\ (exists b',
        @Basic.recognize_face Z Sample.matcher Sample.store_up
          (Basic.mkReads Sample.noon Sample.noon Sample.noon) 100
          Sample.basic_empty_gallery
        = Some (Desconhecido, b')
        /\ Basic.trace b' = [EvCompareFaces; EvFaceDistance]
        /\ Basic.posts b' = 0%nat).
Proof.
  apply (C7_empty_gallery Sample.matcher Sample.store_up Sample.config
           Sample.empty_gallery Sample.basic_empty_gallery
           Sample.noon (Sample.all_at Sample.noon)
           (Basic.mkReads Sample.noon Sample.noon Sample.noon) 100
           eq_refl eq_refl eq_refl).
Defined.

(** C7 as stated fails for the basic controller: with an empty gallery the
    distance function is called. *)
Lemma C7_counterexample :
  ~ (forall (M : Matcher Z) (B : Backend) (b : Basic.System Z)
            (brd : Basic.reads) (enc : Z) (name : string) (b' : Basic.System Z),
       Basic.known_faces b = [] ->
       Basic.recognize_face brd enc b = Some (name, b') ->
       name = Desconhecido /\ ~ In EvFaceDistance (Basic.trace b')).
Proof.
  intros H.
  destruct (H Sample.matcher Sample.store_up Sample.basic_empty_gallery
              (Basic.mkReads Sample.noon Sample.noon Sample.noon) 100
              Desconhecido
              (Basic.emit EvFaceDistance
                 (Basic.emit EvCompareFaces Sample.basic_empty_gallery))
              eq_refl eq_refl) as [_ Hn].
  apply Hn. simpl. auto.
Qed.

(** ** C9: the lockout and recognised employees *)

(** The lockout is stored under the key "unknown" of the map that
    [can_register_again] probes with the employee id. For every other id
    the verdict does not depend on the entry of "unknown". *)
Lemma lockout_ignored_for_other_ids {encoding : Type}
    (cfg : Config) (s : System encoding) (unlock_at now_lock now : Z) (id : string) :
  id <> "unknown" ->
  (can_register_again cfg now_lock now id
     (set_locked_until (<["unknown" := unlock_at]> (locked_until s)) s)).1
  = (can_register_again cfg now_lock now id s).1.
Proof.
  intros Hid. unfold can_register_again, is_employee_locked; simpl.
  rewrite lookup_insert_ne by congruence.
  destruct (locked_until s !! id) as [u|]; [destruct (u <? now_lock)|];
    simpl; try reflexivity;
    destruct (last_recognition s !! id); reflexivity.
Qed.

(** C9 at the failing input: the employee Ana is registered under the id
    "unknown". Seen at 12:00:02 with no lockout, she is submitted (one
    POST, a cooldown entry). Seen at the same time while the lockout
    tripped at 12:00:01 is active, she is refused with the wait label: no
    POST, no cooldown entry. *)
Theorem C9_employee_named_unknown_is_blocked :
  let now := Sample.noon + Sample.at_sec 2 in
  let observe s :=
    (fun r => (r.1, posts r.2, last_recognition r.2 !! "unknown"))
      <$> @process_face Z Sample.matcher Sample.store_up Sample.config
            now (Sample.all_at now) 100 s in
  observe Sample.employee_unknown
  = Some (("Ana", (0, 255, 0)), 1%nat, Some now)
  /\ observe (Sample.locked_at_noon Sample.employee_unknown)
     = Some (("Ana (Aguarde 10s)", (0, 255, 255)), 0%nat, None).
Proof. split; vm_compute; reflexivity. Qed.

(** * Further properties of the controller *)

(** ** The loop of process_recognition *)



(** ** The cache is never filled *)

Section CacheFacts.
Context {encoding : Type} `{Matcher encoding} `{Backend} (cfg : Config).
Implicit Type s : System encoding.

Lemma cache_lookup_empty enc s :
  encoding_cache s = Some ∅ \/ encoding_cache s = None ->
  cache_lookup cfg enc s = None.
Proof. unfold cache_lookup. now intros [-> | ->]. Qed.

Lemma process_face_keeps_empty_cache current_time rd enc s label s' :
  encoding_cache s = Some ∅ \/ encoding_cache s = None ->
  process_face cfg current_time rd enc s = Some (label, s') ->
  encoding_cache s' = encoding_cache s.
Proof.
  intros He.
  assert (Hfin : forall l x, finish_face cfg rd l x = (label, s') ->
                             encoding_cache s' = encoding_cache x).
  { intros l x Hf. destruct (finish_face_frame cfg rd l x) as (_ & Hc & _).
    now rewrite Hf in Hc. }
  unfold process_face.
  destruct (0 <? length (known_faces s))%nat.
  - rewrite (cache_lookup_empty enc s He). unfold match_gallery.
    destruct (gallery_candidate cfg enc s) as [[[name id]|]|];
      cbn -[finish_face decide_registration cache_insert];
      [| |discriminate].
    + rewrite cache_insert_empty by (simpl; exact He).
      destruct (decide_registration_frame cfg current_time rd name id
                  (emit EvFaceDistance (emit EvCompareFaces s))) as [Hc _].
      destruct (decide_registration cfg current_time rd name id _)
        as [l1 s1]; cbn -[finish_face] in *.
      intros Hf. apply (inj Some), Hfin in Hf. now rewrite Hf, Hc.
    + intros Hf. now apply (inj Some), Hfin in Hf.
  - intros Hf. now apply (inj Some), Hfin in Hf.
Qed.

End CacheFacts.

(** X2: In the state built by [__init__] the cache is the empty dict or
    [None]; both are false in a boolean position, so no frame ever writes
    to the cache: after any [process_recognition] the cache is what it was,
    and no face is answered from it. *)
Theorem cache_never_populated {encoding : Type}
    (M : Matcher encoding) (B : Backend) (cfg : Config) (current_time : Z)
    (faces : list (encoding * reads)) (s s' : System encoding)
    (labels : list face_label) :
  encoding_cache s = Some ∅ \/ encoding_cache s = None ->
  process_recognition cfg current_time faces s = Some (labels, s') ->
  encoding_cache s' = encoding_cache s
  /\ forall enc, cache_lookup cfg enc s' = None.
Proof.
  intros He Hp.
  assert (Hc : encoding_cache s' = encoding_cache s).
  { revert s labels He Hp.
    induction faces as [|[enc rd] rest IH]; intros s labels He.
    - simpl. now intros [= _ <-].
    - simpl.
      destruct (process_face cfg current_time rd enc s) as [[label s1]|] eqn:Ef;
        simpl; [|discriminate].
      destruct (process_recognition cfg current_time rest s1) as [[ls s2]|] eqn:Er;
        simpl; [|discriminate].
      intros [= _ <-].
      pose proof (process_face_keeps_empty_cache cfg _ _ _ _ _ _ He Ef) as H1.
      rewrite <- H1. apply (IH s1 ls); [now rewrite H1 | exact Er]. }
  split; [exact Hc|].
  intros enc. apply cache_lookup_empty. now rewrite Hc.
Qed.

Lemma cache_never_populated_witness :
  exists labels s',
    @process_recognition Z Sample.matcher Sample.store_up Sample.config
      Sample.noon [(100, Sample.all_at Sample.noon)] Sample.one_employee
    = Some (labels, s')
    /\ encoding_cache s' = Some ∅.
Proof.
  destruct (@process_recognition Z Sample.matcher Sample.store_up Sample.config
              Sample.noon [(100, Sample.all_at Sample.noon)] Sample.one_employee)
    as [[labels s']|] eqn:E; [|vm_compute in E; discriminate].
  exists labels, s'. split; [reflexivity|].
  apply (cache_never_populated Sample.matcher Sample.store_up Sample.config
           _ _ Sample.one_employee s' labels (or_introl eq_refl) E).
Defined.

(** ** The candidate chosen in the gallery *)

Lemma Qltb_true (x y : Q) : Qltb x y = true -> (x < y)%Q.
Proof.
  unfold Qltb. intros Hb. apply negb_true_iff in Hb.
  apply Qnot_le_lt. intros Hle. apply Qle_bool_iff in Hle. congruence.
Qed.

Lemma Qltb_false (x y : Q) : Qltb x y = false -> (y <= x)%Q.
Proof.
  unfold Qltb. intros Hb. apply negb_false_iff in Hb.
  now apply Qle_bool_iff.
Qed.

(** [argmin_from] returns the running best or a later index; its value is
    below the running best and below every later element, and every
    element before it is strictly above. *)
Lemma argmin_from_spec (l : list Q) (best_i : nat) (best : Q) (i : nat) :
  exists d,
    ((argmin_from best_i best i l = best_i /\ d = best
      /\ forall k d', l !! k = Some d' -> (d <= d')%Q)
     \/ (exists k, argmin_from best_i best i l = (i + k)%nat
                   /\ l !! k = Some d
                   /\ (d < best)%Q
                   /\ (forall j d', (j < k)%nat -> l !! j = Some d' -> (d < d')%Q)
                   /\ forall j d', l !! j = Some d' -> (d <= d')%Q)).
Proof.
  revert best_i best i. induction l as [|x l IH]; intros best_i best i; simpl.
  - exists best. left. repeat split. intros k d' Hk. discriminate.
  - destruct (Qltb x best) eqn:Ex.
    + apply Qltb_true in Ex.
      destruct (IH i x (S i)) as [d [(Ha & -> & Hmin) | (k & Ha & Hk & Hlt & Hbefore & Hmin)]].
      * exists x. right. exists 0%nat. rewrite Ha, Nat.add_0_r.
        repeat split; try assumption.
        -- intros j d' Hj. lia.
        -- intros [|j] d' Hj; simpl in Hj.
           ++ injection Hj as <-. apply Qle_refl.
           ++ now apply (Hmin j).
      * exists d. right. exists (S k). rewrite Ha.
        repeat split.
        -- lia.
        -- exact Hk.
        -- now apply Qlt_trans with x.
        -- intros [|j] d' Hj Hd'; simpl in Hd'.
           ++ now injection Hd' as <-.
           ++ apply (Hbefore j); [lia | exact Hd'].
        -- intros [|j] d' Hj; simpl in Hj.
           ++ injection Hj as <-. now apply Qlt_le_weak.
           ++ now apply (Hmin j).
    + apply Qltb_false in Ex.
      destruct (IH best_i best (S i)) as [d [(Ha & -> & Hmin) | (k & Ha & Hk & Hlt & Hbefore & Hmin)]].
      * exists best. left. repeat split; [assumption|].
        intros [|j] d' Hj; simpl in Hj.
        -- now injection Hj as <-.
        -- now apply (Hmin j).
      * exists d. right. exists (S k). rewrite Ha.
        repeat split.
        -- lia.
        -- exact Hk.
        -- exact Hlt.
        -- intros [|j] d' Hj Hd'; simpl in Hd'.
           ++ injection Hd' as <-. now apply Qlt_le_trans with best.
           ++ apply (Hbefore j); [lia | exact Hd'].
        -- intros [|j] d' Hj; simpl in Hj.
           ++ injection Hj as <-. apply Qlt_le_weak.
              now apply Qlt_le_trans with best.
           ++ now apply (Hmin j).
Qed.

(** [argmin] of a list that is not empty: the first index of a least
    element *)
Lemma argmin_spec (l : list Q) :
  l <> [] ->
  exists d,
    l !! argmin l = Some d
    /\ (forall j d', l !! j = Some d' -> (d <= d')%Q)
    /\ forall j d', (j < argmin l)%nat -> l !! j = Some d' -> (d < d')%Q.
Proof.
  destruct l as [|x l]; [congruence|]. intros _. unfold argmin.
  destruct (argmin_from_spec l 0%nat x 1%nat)
    as [d [(Ha & -> & Hmin) | (k & Ha & Hk & Hlt & Hbefore & Hmin)]].
  - exists x. rewrite Ha. repeat split.
    + intros [|j] d' Hj; simpl in Hj.
      * injection Hj as <-. apply Qle_refl.
      * now apply (Hmin j).
    + intros j d' Hj. lia.
  - exists d. rewrite Ha. repeat split.
    + exact Hk.
    + intros [|j] d' Hj; simpl in Hj.
      * injection Hj as <-. now apply Qlt_le_weak.
      * now apply (Hmin j).
    + intros [|j] d' Hj Hd'; simpl in Hd'.
      * now injection Hd' as <-.
      * apply (Hbefore j); [lia | exact Hd'].
Qed.

Lemma length_nonempty {A : Type} (l : list A) :
  (0 <? length l)%nat = true -> l <> [].
Proof. now destruct l. Qed.

(** X3: a face is attributed to a nearest entry of the gallery. When
    [gallery_candidate] accepts [(name, id)], some index [i] carries that
    name and id, the matcher's verdict at [i] is true, the distance at [i]
    is below the tolerance and is the least of all distances, and every
    earlier entry is strictly farther. *)
Theorem gallery_candidate_is_nearest {encoding : Type}
    (M : Matcher encoding) (cfg : Config) (s : System encoding)
    (enc : encoding) (name id : string) :
  gallery_candidate cfg enc s = Some (Some (name, id)) ->
  exists i d,
    known_names s !! i = Some name
    /\ known_ids s !! i = Some id
    /\ compare_faces (known_faces s) enc (FACE_RECOGNITION_TOLERANCE cfg) !! i
       = Some true
    /\ face_distance (known_faces s) enc !! i = Some d
    /\ (d < FACE_RECOGNITION_TOLERANCE cfg)%Q
    /\ (forall j d', face_distance (known_faces s) enc !! j = Some d' ->
                     (d <= d')%Q)
    /\ forall j d', (j < i)%nat ->
                    face_distance (known_faces s) enc !! j = Some d' ->
                    (d < d')%Q.
Proof.
  unfold gallery_candidate.
  destruct (0 <? length (face_distance (known_faces s) enc))%nat eqn:El;
    [|discriminate].
  destruct (argmin_spec _ (length_nonempty _ El)) as (d & Hd & Hmin & Hfirst).
  set (i := argmin (face_distance (known_faces s) enc)) in *.
  destruct (compare_faces (known_faces s) enc (FACE_RECOGNITION_TOLERANCE cfg) !! i)
    as [m|] eqn:Em; simpl; [|discriminate].
  rewrite Hd. simpl.
  destruct m; simpl; [|discriminate].
  destruct (Qltb d (FACE_RECOGNITION_TOLERANCE cfg)) eqn:Et; [|discriminate].
  destruct (known_names s !! i) as [n|] eqn:En; simpl; [|discriminate].
  destruct (known_ids s !! i) as [e|] eqn:Ee; simpl; [|discriminate].
  intros [= <- <-]. exists i, d.
  repeat split; try assumption. now apply Qltb_true.
Qed.

Lemma gallery_candidate_is_nearest_witness :
  exists i d,
    known_names Sample.one_employee !! i = Some "Ana"
    /\ face_distance (Matcher := Sample.matcher)
         (known_faces Sample.one_employee) 103 !! i = Some d
    /\ (d < 6 # 10)%Q.
Proof.
  destruct (gallery_candidate_is_nearest Sample.matcher Sample.config
              Sample.one_employee 103 "Ana" "E1" eq_refl)
    as (i & d & Hn & _ & _ & Hd & Hlt & _).
  exists i, d. auto.
Defined.

(** X4: no [IndexError]. When the three lists of the gallery have the same
    length and the matcher returns one verdict and one distance per known
    face, [process_face] returns. *)
Theorem process_face_no_index_error {encoding : Type}
    (M : Matcher encoding) (B : Backend) (cfg : Config) (s : System encoding)
    (current_time : Z) (rd : reads) (enc : encoding) :
  length (known_names s) = length (known_faces s) ->
  length (known_ids s) = length (known_faces s) ->
  length (compare_faces (known_faces s) enc (FACE_RECOGNITION_TOLERANCE cfg))
  = length (known_faces s) ->
  length (face_distance (known_faces s) enc) = length (known_faces s) ->
  exists label s', process_face cfg current_time rd enc s = Some (label, s').
Proof.
  intros Hn Hi Hm Hd.
  assert (Hc : exists c, gallery_candidate cfg enc s = Some c).
  { unfold gallery_candidate.
    destruct (0 <? length (face_distance (known_faces s) enc))%nat eqn:El;
      [|eauto].
    destruct (argmin_spec _ (length_nonempty _ El)) as (d & Hd' & _).
    set (i := argmin (face_distance (known_faces s) enc)) in *.
    assert (Hlt : (i < length (known_faces s))%nat).
    { rewrite <- Hd. now apply lookup_lt_Some with d. }
    destruct (lookup_lt_is_Some_2
                (compare_faces (known_faces s) enc (FACE_RECOGNITION_TOLERANCE cfg)) i)
      as [m Hm']; [lia|].
    destruct (lookup_lt_is_Some_2 (known_names s) i) as [n Hn']; [lia|].
    destruct (lookup_lt_is_Some_2 (known_ids s) i) as [e He']; [lia|].
    rewrite Hm', Hd'. simpl.
    destruct (m && Qltb d _); [|eauto].
    rewrite Hn', He'. simpl. eauto. }
  destruct Hc as [c Hc]. unfold process_face.
  destruct (0 <? length (known_faces s))%nat.
  - destruct (cache_lookup cfg enc s) as [[name id]|]; [eauto|].
    unfold match_gallery. rewrite Hc.
    cbn -[finish_face decide_registration cache_insert].
    destruct c as [[name id]|].
    + destruct (decide_registration cfg current_time rd name id _) as [l1 s1].
      cbn -[finish_face].
      destruct (finish_face cfg rd l1 s1) as [l2 s2]. eauto.
    + cbn -[finish_face].
      match goal with |- context [finish_face cfg rd ?l ?x] =>
        destruct (finish_face cfg rd l x) as [l2 s2] end. eauto.
  - match goal with |- context [finish_face cfg rd ?l ?x] =>
      destruct (finish_face cfg rd l x) as [l2 s2] end. eauto.
Qed.

Lemma process_face_no_index_error_witness :
  exists label s',
    @process_face Z Sample.matcher Sample.store_up Sample.config
      Sample.noon (Sample.all_at Sample.noon) 100 Sample.one_employee
    = Some (label, s').
Proof.
  apply (process_face_no_index_error Sample.matcher Sample.store_up
           Sample.config Sample.one_employee Sample.noon
           (Sample.all_at Sample.noon) 100 eq_refl eq_refl eq_refl eq_refl).
Defined.

(** ** The outcomes of a gallery match *)

Section Outcomes.
Context {encoding : Type} `{Matcher encoding} `{Backend} (cfg : Config).
Implicit Type s : System encoding.


Lemma send_all_attempts_fail id name ts s :
  succeeded (store (posts s)) = false ->
  succeeded (store (S (posts s))) = false ->
  succeeded (store (S (S (posts s)))) = false ->
  let out := send_timecard_to_backend id name ts s in
  out.1 = (false, None)
  /\ posts out.2 = (posts s + 3)%nat
  /\ last_recognition out.2 = last_recognition s.
Proof.
  unfold send_timecard_to_backend; simpl.
  destruct (store (posts s)) as [c0 b0|]; simpl;
    [intros ->|intros _];
    (destruct (store (S (posts s))) as [c1 b1|]; simpl;
     [intros ->|intros _]);
    (destruct (store (S (S (posts s)))) as [c2 b2|]; simpl;
     [intros ->|intros _]);
    simpl; repeat split; lia.
Qed.

Lemma finish_face_ledgers rd label s :
  let r := finish_face cfg rd label s in
  last_recognition r.2 = last_recognition s /\ posts r.2 = posts s.
Proof.
  unfold finish_face. destruct (bool_decide _); simpl; [|auto].
  destruct (register_failed_attempt_frame cfg (t_fail rd) s) as (? & _ & ? & _).
  auto.
Qed.


(** the state in which [decide_registration] runs after a gallery match,
    and what it shares with the state before the face *)
Lemma decision_state enc name id s :
  let s0 := cache_insert enc name id (emit EvFaceDistance (emit EvCompareFaces s)) in
  locked_until s0 = locked_until s
  /\ last_recognition s0 = last_recognition s
  /\ posts s0 = posts s.
Proof.
  destruct (cache_insert_frame enc name id
              (emit EvFaceDistance (emit EvCompareFaces s)))
    as (Hlk & Hlr & Hps & _).
  simpl in *. auto.
Qed.


End Outcomes.



(** X6: the lost event. In the same situation, when none of the three
    attempts is answered 200, three POSTs are made and no cooldown entry is
    written, so the next frame tries again; the label is the plain name,
    the same as after an accepted registration. *)
Theorem failed_submission_leaves_no_cooldown {encoding : Type}
    (M : Matcher encoding) (B : Backend) (cfg : Config) (s : System encoding)
    (current_time : Z) (rd : reads) (enc : encoding) (name id : string) :
  known_faces s <> [] ->
  cache_lookup cfg enc s = None ->
  gallery_candidate cfg enc s = Some (Some (name, id)) ->
  (can_register_again cfg (t_lock rd) (t_cooldown rd) id s).1 = true ->
  is_work_hours cfg (t_work rd) = true
    \/ getattr (ALLOW_AFTER_HOURS cfg) true = true ->
  succeeded (store (posts s)) = false ->
  succeeded (store (S (posts s))) = false ->
  succeeded (store (S (S (posts s)))) = false ->
  exists s',
    process_face cfg current_time rd enc s
    = Some ((name, COLOR_RECOGNIZED cfg), s')
    /\ posts s' = (posts s + 3)%nat
    /\ last_recognition s' = last_recognition s.
Proof.
  intros Hg Hl Hm Ha Hw Hs0 Hs1 Hs2.
  rewrite (process_face_gallery_match cfg current_time rd enc name id s Hg Hl Hm).
  set (s0 := cache_insert enc name id (emit EvFaceDistance (emit EvCompareFaces s))).
  destruct (decision_state enc name id s) as (Hlk & Hlr & Hps). fold s0 in Hlk, Hlr, Hps.
  rewrite <- (can_register_again_ledgers cfg (t_lock rd) (t_cooldown rd) id
                s0 s Hlk Hlr) in Ha.
  unfold decide_registration.
  pose proof (can_register_again_state cfg (t_lock rd) (t_cooldown rd) id s0) as Hst.
  destruct (is_employee_locked_frame (t_lock rd) id s0) as (H1 & _ & H3 & _).
  destruct (can_register_again cfg (t_lock rd) (t_cooldown rd) id s0)
    as [allowed s1]. simpl in Hst, Ha. subst s1 allowed.
  set (s1 := (is_employee_locked (t_lock rd) id s0).2) in *.
  assert (Hgate : negb (is_work_hours cfg (t_work rd))
                  && negb (getattr (ALLOW_AFTER_HOURS cfg) true) = false).
  { destruct Hw as [-> | ->]; [reflexivity | apply andb_false_r]. }
  rewrite Hgate.
  assert (Hp1 : posts s1 = posts s) by (rewrite H3; exact Hps).
  destruct (send_all_attempts_fail id name current_time s1)
    as (Ho & Hposts & Hlast); rewrite ?Hp1; try assumption.
  destruct (send_timecard_to_backend id name current_time s1) as [[success result] s2].
  simpl in Ho, Hposts, Hlast. injection Ho as -> ->.
  cbn -[finish_face].
  destruct (finish_face_ledgers cfg rd (name, COLOR_RECOGNIZED cfg) s2) as [Hf1 Hf2].
  destruct (finish_face_frame cfg rd (name, COLOR_RECOGNIZED cfg) s2) as (Hf0 & _ & _).
  destruct (finish_face cfg rd (name, COLOR_RECOGNIZED cfg) s2) as [label s'].
  simpl in Hf0, Hf1, Hf2. subst label.
  exists s'. split; [reflexivity|]. split.
  - rewrite Hf2, Hposts, Hp1. reflexivity.
  - rewrite Hf1, Hlast, H1, Hlr. reflexivity.
Qed.

Lemma failed_submission_leaves_no_cooldown_witness :
  exists s',
    @process_face Z Sample.matcher Sample.store_down Sample.config
      Sample.noon (Sample.all_at Sample.noon) 100 Sample.one_employee
    = Some (("Ana", (0, 255, 0)), s')
    /\ posts s' = 3%nat
    /\ last_recognition s' = ∅.
Proof.
  assert (Hg : known_faces Sample.one_employee <> []) by discriminate.
  apply (failed_submission_leaves_no_cooldown Sample.matcher Sample.store_down
           Sample.config Sample.one_employee Sample.noon
           (Sample.all_at Sample.noon) 100 "Ana" "E1"
           Hg eq_refl eq_refl eq_refl (or_introl eq_refl)
           eq_refl eq_refl eq_refl).
Defined.

(** ** Unresolved faces and the lockout *)

Section Unresolved.
Context {encoding : Type} `{Matcher encoding} `{Backend} (cfg : Config).
Implicit Type s : System encoding.

Lemma unresolved_same_gallery s s' enc :
  same_gallery s s' -> unresolved cfg s enc -> unresolved cfg s' enc.
Proof.
  intros (Hf & Hn & Hi & Hc). unfold unresolved, cache_lookup, gallery_candidate.
  now rewrite Hf, Hn, Hi, Hc.
Qed.

Lemma register_failed_attempt_gallery now s :
  same_gallery s (register_failed_attempt cfg now false s).
Proof.
  unfold same_gallery, register_failed_attempt. rewrite andb_false_r.
  destruct (MAX_FAILED_ATTEMPTS cfg); [|auto].
  destruct (_ <=? _); [destruct (LOCKOUT_TIME cfg)|]; simpl; auto.
Qed.

Lemma filter_keeps_all (bound : Z) (l : list Z) :
  Forall (fun e => bound < e) l ->
  List.filter (fun e => bound <? e) l = l.
Proof.
  induction 1 as [|e l He _ IH]; simpl; [reflexivity|].
  apply Z.ltb_lt in He. now rewrite He, IH.
Qed.

(** an unresolved face ends in [register_failed_attempt], run in a state
    that has the ledgers, the gallery and the cache of the state before *)
Lemma process_face_unresolved current_time rd enc s :
  unresolved cfg s enc ->
  exists s0,
    process_face cfg current_time rd enc s
    = Some ((Desconhecido, COLOR_UNKNOWN cfg),
            register_failed_attempt cfg (t_fail rd) false s0)
    /\ same_gallery s s0
    /\ failed_attempts s0 = failed_attempts s
    /\ locked_until s0 = locked_until s.
Proof.
  unfold unresolved, process_face. intros Hu.
  destruct (0 <? length (known_faces s))%nat eqn:El.
  - destruct Hu as [He | [Hc Hg]]; [now rewrite He in El|].
    rewrite Hc. unfold match_gallery. rewrite Hg.
    exists (emit EvFaceDistance (emit EvCompareFaces s)).
    unfold same_gallery. repeat split.
  - exists s. unfold same_gallery. repeat split.
Qed.

(** the frame: every face unresolved, every timestamp involved within one
    hour before [hi], every read of the clock at most [hi] *)
Lemma unresolved_frame current_time (faces : list (encoding * reads)) s
    (max_failed hi : Z) :
  MAX_FAILED_ATTEMPTS cfg = Some max_failed ->
  Forall (fun face => unresolved cfg s face.1) faces ->
  Forall (fun e => hi - Time.hours 1 < e)
         (read_failure_window s ++ failure_times faces) ->
  Forall (fun t => t <= hi) (failure_times faces) ->
  exists labels s',
    process_recognition cfg current_time faces s = Some (labels, s')
    /\ Forall (fun label => label = (Desconhecido, COLOR_UNKNOWN cfg)) labels
    /\ read_failure_window s' = read_failure_window s ++ failure_times faces
    /\ (Z.of_nat (length (read_failure_window s ++ failure_times faces))
        < max_failed ->
        locked_until s' !! "unknown" = locked_until s !! "unknown")
    /\ forall lockout front enc rd,
         LOCKOUT_TIME cfg = Some lockout ->
         faces = front ++ [(enc, rd)] ->
         max_failed
         <= Z.of_nat (length (read_failure_window s ++ failure_times faces)) ->
         locked_until s' !! "unknown"
         = Some (t_fail rd + Time.seconds lockout).
Proof.
  intros Hm. revert s.
  induction faces as [|[enc rd] rest IH]; intros s Hu Hw Hhi.
  - exists [], s. simpl. rewrite app_nil_r. repeat split; auto.
    intros lockout front enc rd _ Hf. now destruct front.
  - apply Forall_cons in Hu as [Hu1 Hu]. simpl in Hu1.
    simpl in Hhi. apply Forall_cons in Hhi as [Hhi1 Hhi].
    destruct (process_face_unresolved current_time rd enc s Hu1)
      as (s0 & Hp & Hg0 & Hfa & Hlk).
    set (s1 := register_failed_attempt cfg (t_fail rd) false s0) in *.
    assert (Hw0 : read_failure_window s0 = read_failure_window s).
    { unfold read_failure_window. now rewrite Hfa. }
    assert (Hw1 : read_failure_window s1 = read_failure_window s ++ [t_fail rd]).
    { unfold s1. rewrite (register_failed_attempt_window _ _ _ _ _ Hm), Hw0.
      apply filter_keeps_all.
      apply Forall_forall. intros e He.
      assert (He' : hi - Time.hours 1 < e).
      { apply (proj1 (Forall_forall _ _) Hw).
        simpl. apply elem_of_app in He as [He | He].
        - apply elem_of_app. now left.
        - apply elem_of_app. right.
          apply list_elem_of_singleton in He. subst e.
          apply elem_of_cons. now left. }
      lia. }
    assert (Hg1 : same_gallery s s1).
    { destruct Hg0 as (? & ? & ? & ?).
      destruct (register_failed_attempt_gallery (t_fail rd) s0) as (? & ? & ? & ?).
      unfold same_gallery. fold s1 in H5, H6, H7, H8.
      repeat split; congruence. }
    assert (Happ : read_failure_window s1 ++ failure_times rest
                   = read_failure_window s ++ failure_times ((enc, rd) :: rest)).
    { rewrite Hw1, <- app_assoc. reflexivity. }
    destruct (IH s1) as (labels & s' & Hr & Hl & Hwin & Hbelow & Hat).
    + apply Forall_forall. intros face Hf.
      apply (unresolved_same_gallery s s1 _ Hg1).
      now apply (proj1 (Forall_forall _ _) Hu).
    + now rewrite Happ.
    + exact Hhi.
    + exists ((Desconhecido, COLOR_UNKNOWN cfg) :: labels), s'.
      simpl process_recognition. rewrite Hp.
      cbn -[register_failed_attempt process_recognition failure_times
            read_failure_window].
      fold s1. rewrite Hr.
      cbn -[register_failed_attempt failure_times read_failure_window].
      split; [reflexivity|].
      split; [now constructor|].
      split; [now rewrite Hwin, Happ|].
      assert (Hlock1 :
        locked_until s1 !! "unknown"
        = if max_failed <=? Z.of_nat (length (read_failure_window s1))
          then match LOCKOUT_TIME cfg with
               | Some lockout => Some (t_fail rd + Time.seconds lockout)
               | None => locked_until s !! "unknown"
               end
          else locked_until s !! "unknown").
      { unfold s1. rewrite (register_failed_attempt_lock _ _ _ _ _ Hm).
        now rewrite Hlk. }
      assert (Hlen1 : (length (read_failure_window s1)
                       <= length (read_failure_window s
                                  ++ failure_times ((enc, rd) :: rest)))%nat).
      { rewrite <- Happ, length_app. lia. }
      split.
      * intros Hlen. rewrite Hbelow by (rewrite Happ; exact Hlen).
        rewrite Hlock1.
        destruct (max_failed <=? _) eqn:E; [|reflexivity].
        apply Z.leb_le in E. lia.
      * intros lockout front enc' rd' Hlo Hfaces Hlen.
        destruct rest as [|face rest'].
        -- destruct front as [|f front'];
             [|destruct front'; discriminate].
           injection Hfaces as <- <-.
           simpl in Hr. injection Hr as _ <-.
           rewrite Hlock1, Hlo.
           assert (Hlen2 : length (read_failure_window s1)
                           = length (read_failure_window s
                                     ++ failure_times [(enc, rd)])).
           { now rewrite Hw1. }
           destruct (max_failed <=? _) eqn:E; [reflexivity|].
           apply Z.leb_gt in E. lia.
        -- destruct front as [|f front']; [discriminate|].
           injection Hfaces as _ Hrest.
           apply (Hat lockout front' enc' rd' Hlo Hrest).
           now rewrite Happ.
Qed.

End Unresolved.

(** X7: unresolved faces accumulate. When every face of a frame is left
    unknown and all the timestamps involved lie within one hour, each face
    gets the label of the unknown and adds its timestamp to the failure
    window; nothing is pruned. *)
Theorem unresolved_faces_fill_window {encoding : Type}
    (M : Matcher encoding) (B : Backend) (cfg : Config) (current_time : Z)
    (faces : list (encoding * reads)) (s : System encoding)
    (max_failed hi : Z) :
  MAX_FAILED_ATTEMPTS cfg = Some max_failed ->
  Forall (fun face => unresolved cfg s face.1) faces ->
  Forall (fun e => hi - Time.hours 1 < e)
         (read_failure_window s ++ failure_times faces) ->
  Forall (fun t => t <= hi) (failure_times faces) ->
  exists labels s',
    process_recognition cfg current_time faces s = Some (labels, s')
    /\ Forall (fun label => label = (Desconhecido, COLOR_UNKNOWN cfg)) labels
    /\ read_failure_window s' = read_failure_window s ++ failure_times faces.
Proof.
  intros Hm Hu Hw Hhi.
  destruct (unresolved_frame cfg current_time faces s max_failed hi Hm Hu Hw Hhi)
    as (labels & s' & Hr & Hl & Hwin & _).
  exists labels, s'. auto.
Qed.

Lemma three_strangers_unresolved :
  Forall (fun face : Z * reads =>
            unresolved (H := Sample.matcher) Sample.config
                       Sample.one_employee face.1)
         Demo.three_strangers.
Proof. repeat constructor; right; split; reflexivity. Qed.

Lemma unresolved_faces_fill_window_witness :
  exists labels s',
    @process_recognition Z Sample.matcher Sample.store_up Sample.config
      Sample.noon Demo.three_strangers Sample.one_employee = Some (labels, s')
    /\ read_failure_window s'
       = [Sample.noon; Sample.noon + Sample.at_sec 1;
          Sample.noon + Sample.at_sec 2].
Proof.
  destruct (unresolved_faces_fill_window Sample.matcher Sample.store_up
              Sample.config Sample.noon Demo.three_strangers
              Sample.one_employee 2 (Sample.noon + Sample.at_sec 2) eq_refl
              three_strangers_unresolved)
    as (labels & s' & Hr & _ & Hw).
  - repeat constructor; reflexivity.
  - repeat constructor; vm_compute; discriminate.
  - exists labels, s'. split; [exact Hr|]. exact Hw.
Defined.

(** X8: the lockout trips at the threshold. Under the same conditions, as
    long as the window holds fewer than [MAX_FAILED_ATTEMPTS] entries the
    lockout entry is untouched; once the window, with the faces of the
    frame, holds [MAX_FAILED_ATTEMPTS] entries or more, the scope is locked
    until the time of the last face plus [LOCKOUT_TIME], and
    [is_employee_locked] answers [True] up to that instant included. *)
Theorem lockout_trips_at_threshold {encoding : Type}
    (M : Matcher encoding) (B : Backend) (cfg : Config) (current_time : Z)
    (front : list (encoding * reads)) (enc : encoding) (rd : reads)
    (s : System encoding) (max_failed lockout hi : Z) :
  let faces := front ++ [(enc, rd)] in
  MAX_FAILED_ATTEMPTS cfg = Some max_failed ->
  LOCKOUT_TIME cfg = Some lockout ->
  Forall (fun face => unresolved cfg s face.1) faces ->
  Forall (fun e => hi - Time.hours 1 < e)
         (read_failure_window s ++ failure_times faces) ->
  Forall (fun t => t <= hi) (failure_times faces) ->
  exists labels s',
    process_recognition cfg current_time faces s = Some (labels, s')
    /\ (Z.of_nat (length (read_failure_window s) + length faces) < max_failed ->
        locked_until s' !! "unknown" = locked_until s !! "unknown")
    /\ (max_failed <= Z.of_nat (length (read_failure_window s) + length faces) ->
        locked_until s' !! "unknown" = Some (t_fail rd + Time.seconds lockout)
        /\ forall now, now <= t_fail rd + Time.seconds lockout ->
                       is_employee_locked now "unknown" s' = (true, s')).
Proof.
  intros faces Hm Hlo Hu Hw Hhi.
  destruct (unresolved_frame cfg current_time faces s max_failed hi Hm Hu Hw Hhi)
    as (labels & s' & Hr & _ & _ & Hbelow & Hat).
  assert (Hlen : length (read_failure_window s ++ failure_times faces)
                 = (length (read_failure_window s) + length faces)%nat).
  { unfold failure_times. now rewrite length_app, length_map. }
  rewrite Hlen in Hbelow, Hat.
  exists labels, s'. split; [exact Hr|]. split; [exact Hbelow|].
  intros Hge.
  pose proof (Hat lockout front enc rd Hlo eq_refl Hge) as Hlock.
  split; [exact Hlock|].
  intros now Hnow. unfold is_employee_locked. rewrite Hlock.
  apply Z.ltb_ge in Hnow. now rewrite Hnow.
Qed.

(** Scenario B with a threshold of 2: three strangers within two seconds at
    noon lock the system until 12:05:02. *)
Lemma lockout_trips_at_threshold_witness :
  exists labels s',
    @process_recognition Z Sample.matcher Sample.store_up Sample.config
      Sample.noon Demo.three_strangers Sample.one_employee = Some (labels, s')
    /\ locked_until s' !! "unknown"
       = Some (Sample.noon + Sample.at_sec 302)
    /\ is_employee_locked (Sample.noon + Sample.at_sec 302) "unknown" s'
       = (true, s').
Proof.
  destruct (lockout_trips_at_threshold Sample.matcher Sample.store_up
              Sample.config Sample.noon
              [(900, Sample.all_at Sample.noon);
               (901, Sample.all_at (Sample.noon + Sample.at_sec 1))]
              902 (Sample.all_at (Sample.noon + Sample.at_sec 2))
              Sample.one_employee 2 300 (Sample.noon + Sample.at_sec 2)
              eq_refl eq_refl three_strangers_unresolved)
    as (labels & s' & Hr & _ & Hat).
  - repeat constructor; reflexivity.
  - repeat constructor; vm_compute; discriminate.
  - exists labels, s'. split; [exact Hr|].
    destruct Hat as [Hlock Hlocked]; [vm_compute; discriminate|].
    split; [exact Hlock|].
    apply Hlocked. vm_compute. discriminate.
Defined.

(** ** A face answered from the cache *)



(** ** What the submitter touches *)

Lemma send_attempts_only_posts_and_sleeps {encoding : Type} (B : Backend)
    (attempts : list nat) (id name : string) (ts : Z) (s : System encoding) :
  let out := send_attempts attempts id name ts s in
  (exists added,
     trace out.2 = trace s ++ added
     /\ Forall (fun e => e = EvPost id name ts \/ e = EvSleep 1) added
     /\ posts out.2 = (posts s + store_calls added)%nat)
  /\ known_faces out.2 = known_faces s
  /\ known_names out.2 = known_names s
  /\ known_ids out.2 = known_ids s
  /\ last_recognition out.2 = last_recognition s
  /\ failed_attempts out.2 = failed_attempts s
  /\ locked_until out.2 = locked_until s
  /\ encoding_cache out.2 = encoding_cache s.
Proof.
  revert s. induction attempts as [|a rest IH]; intros s; simpl.
  - split; [|repeat split]. exists []. rewrite app_nil_r. repeat split.
    + constructor.
    + unfold store_calls. simpl. lia.
  - assert (Hstep : forall (x : System encoding) extra,
              trace x = trace s ++ EvPost id name ts :: extra ->
              Forall (fun e => e = EvPost id name ts \/ e = EvSleep 1) extra ->
              posts x = S (posts s) ->
              store_calls extra = 0%nat ->
              exists added,
                trace (send_attempts rest id name ts x).2 = trace s ++ added
                /\ Forall (fun e => e = EvPost id name ts \/ e = EvSleep 1) added
                /\ posts (send_attempts rest id name ts x).2
                   = (posts s + store_calls added)%nat).
    { intros x extra Ht Hf Hp Hc.
      destruct (IH x) as [(added & Ha & Hfa & Hpa) _].
      exists (EvPost id name ts :: extra ++ added). repeat split.
      - rewrite Ha, Ht, <- app_assoc. reflexivity.
      - constructor; [now left|]. apply Forall_app. now split.
      - rewrite Hpa, Hp. unfold store_calls in *. simpl.
        rewrite List.filter_app, length_app, Hc. lia. }
    destruct (store (posts s)) as [c b|]; [destruct (c =? 200)|].
    + simpl. split; [|repeat split].
      exists [EvPost id name ts]. repeat split.
      * repeat constructor.
      * unfold store_calls. simpl. lia.
    + split.
      * apply (Hstep _ []); simpl; auto.
      * now destruct (IH (emit (EvPost id name ts) s)) as (_ & ? & ? & ? & ? & ? & ? & ?).
    + destruct (a <? _)%nat.
      * split.
        -- apply (Hstep _ [EvSleep 1]); simpl; auto.
           now rewrite <- app_assoc.
        -- now destruct (IH (emit (EvSleep 1) (emit (EvPost id name ts) s)))
             as (_ & ? & ? & ? & ? & ? & ? & ?).
      * split.
        -- apply (Hstep _ []); simpl; auto.
        -- now destruct (IH (emit (EvPost id name ts) s))
             as (_ & ? & ? & ? & ? & ? & ? & ?).
Qed.

(** X10: the submitter owns no state. [send_timecard_to_backend] adds to
    the trace only POSTs of the payload it was given and sleeps of one
    second, counts each POST, and leaves the gallery, the three ledgers and
    the cache as they were. *)
Theorem submitter_touches_only_the_store {encoding : Type} (B : Backend)
    (id name : string) (ts : Z) (s : System encoding) :
  let out := send_timecard_to_backend id name ts s in
  (exists added,
     trace out.2 = trace s ++ added
     /\ Forall (fun e => e = EvPost id name ts \/ e = EvSleep 1) added
     /\ posts out.2 = (posts s + store_calls added)%nat)
  /\ known_faces out.2 = known_faces s
  /\ known_names out.2 = known_names s
  /\ known_ids out.2 = known_ids s
  /\ last_recognition out.2 = last_recognition s
  /\ failed_attempts out.2 = failed_attempts s
  /\ locked_until out.2 = locked_until s
  /\ encoding_cache out.2 = encoding_cache s.
Proof. apply send_attempts_only_posts_and_sleeps. Qed.

(** ** The basic controller *)

(** X11: the basic controller never retries and writes the cooldown entry
    only after a 200. Whenever [recognize_face] returns, the gallery is
    unchanged, both matcher functions have been called, and either no POST
    was made and the cooldown ledger is unchanged, or exactly one POST was
    made; in that case the ledger is unchanged unless the POST was answered
    200, and then it has received, at the time read after the answer, the
    entry of an identity with a non-empty id that the cooldown allowed. *)
Theorem basic_one_post_per_face {encoding : Type}
    (M : Matcher encoding) (B : Backend) (rd : Basic.reads) (enc : encoding)
    (s s' : Basic.System encoding) (name : string) :
  Basic.recognize_face rd enc s = Some (name, s') ->
  Basic.known_faces s' = Basic.known_faces s
  /\ Basic.known_names s' = Basic.known_names s
  /\ Basic.known_ids s' = Basic.known_ids s
  /\ Basic.trace s ++ [EvCompareFaces; EvFaceDistance] `prefix_of` Basic.trace s'
  /\ ((Basic.posts s' = Basic.posts s
       /\ Basic.last_recognition s' = Basic.last_recognition s)
      \/ (Basic.posts s' = S (Basic.posts s)
          /\ (Basic.last_recognition s' = Basic.last_recognition s
              \/ exists id,
                   id <> EmptyString
                   /\ Basic.can_register_again (Basic.t_cooldown rd) id s = true
                   /\ succeeded (store (Basic.posts s)) = true
                   /\ Basic.last_recognition s'
                      = <[id := Basic.t_mark rd]> (Basic.last_recognition s)))).
Proof.
  unfold Basic.recognize_face.
  assert (Hpre : Basic.trace s ++ [EvCompareFaces; EvFaceDistance]
                 `prefix_of` (Basic.trace s ++ [EvCompareFaces]) ++ [EvFaceDistance]).
  { now rewrite <- app_assoc. }
  destruct (0 <? length (face_distance (Basic.known_faces s) enc))%nat;
    [|intros [= <- <-]; simpl; repeat split; auto].
  destruct (compare_faces (Basic.known_faces s) enc (6 # 10) !! _) as [m|];
    simpl; [|discriminate].
  destruct (face_distance (Basic.known_faces s) enc !! _) as [d|];
    simpl; [|discriminate].
  destruct (m && Qltb d (6 # 10));
    [|intros [= <- <-]; simpl; repeat split; auto].
  destruct (Basic.known_names s !! _) as [n|]; simpl; [|discriminate].
  destruct (Basic.known_ids s !! _) as [id|]; simpl; [|discriminate].
  destruct (bool_decide (id = EmptyString)) eqn:Eid; simpl;
    [intros [= <- <-]; simpl; repeat split; auto|].
  apply bool_decide_eq_false in Eid.
  unfold Basic.can_register_again at 1. simpl.
  fold (Basic.can_register_again (Basic.t_cooldown rd) id s).
  destruct (Basic.can_register_again (Basic.t_cooldown rd) id s) eqn:Ec;
    [|intros [= <- <-]; simpl; repeat split; auto].
  unfold Basic.send_timecard_to_backend. simpl.
  destruct (store (Basic.posts s)) as [c b|] eqn:Es;
    [destruct (c =? 200) eqn:E200|];
    intros [= <- <-]; simpl; repeat split;
    try (apply prefix_app_r; exact Hpre);
    right; split; auto.
  right. exists id. repeat split; auto.
Qed.

(** Ana, registered in the basic controller, is seen at noon: one POST,
    one cooldown entry. *)
Lemma basic_one_post_per_face_witness :
  exists s',
    @Basic.recognize_face Z Sample.matcher Sample.store_up
      (Basic.mkReads Sample.noon Sample.noon Sample.noon) 100 Demo.basic_with_ana
    = Some ("Ana", s')
    /\ Basic.known_ids s' = ["E1"].
Proof.
  destruct (@Basic.recognize_face Z Sample.matcher Sample.store_up
              (Basic.mkReads Sample.noon Sample.noon Sample.noon) 100
              Demo.basic_with_ana) as [[name s']|] eqn:E;
    [|vm_compute in E; discriminate].
  destruct (basic_one_post_per_face Sample.matcher Sample.store_up _ _ _ _ _ E)
    as (_ & _ & Hids & _).
  assert (Hn : name = "Ana") by (vm_compute in E; congruence).
  subst name. exists s'. split; [reflexivity|exact Hids].
Defined.

(** X12: registration keeps the gallery aligned. When the three lists of
    the gallery have the same length, they still have after
    [register_new_employee]. A refused registration (no face in the image,
    or an error) changes nothing; an accepted one appends the first face
    found, the name and the id at the same new index and leaves every
    earlier entry where it was. *)
Theorem register_new_employee_keeps_alignment {encoding : Type}
    (id name : string) (face_encodings : option (list encoding))
    (s : Basic.System encoding) :
  length (Basic.known_names s) = length (Basic.known_faces s) ->
  length (Basic.known_ids s) = length (Basic.known_faces s) ->
  let out := Registry.register_new_employee id name face_encodings s in
  let n := length (Basic.known_faces s) in
  length (Basic.known_names out.2) = length (Basic.known_faces out.2)
  /\ length (Basic.known_ids out.2) = length (Basic.known_faces out.2)
  /\ (out.1 = false -> out.2 = s)
  /\ (out.1 = true ->
      exists first rest,
        face_encodings = Some (first :: rest)
        /\ Basic.known_faces out.2 !! n = Some first
        /\ Basic.known_names out.2 !! n = Some name
        /\ Basic.known_ids out.2 !! n = Some id
        /\ forall i, (i < n)%nat ->
             Basic.known_faces out.2 !! i = Basic.known_faces s !! i
             /\ Basic.known_names out.2 !! i = Basic.known_names s !! i
             /\ Basic.known_ids out.2 !! i = Basic.known_ids s !! i).
Proof.
  intros Hn Hi. unfold Registry.register_new_employee.
  destruct face_encodings as [[|first rest]|]; simpl;
    repeat split; auto; try discriminate.
  - rewrite !length_app. simpl. lia.
  - rewrite !length_app. simpl. lia.
  - intros _. exists first, rest. split; [reflexivity|].
    split; [now rewrite lookup_app_r, Nat.sub_diag by lia|].
    split; [rewrite <- Hn; now rewrite lookup_app_r, Nat.sub_diag by lia|].
    split; [rewrite <- Hi; now rewrite lookup_app_r, Nat.sub_diag by lia|].
    intros i Hlt. repeat split; apply lookup_app_l; lia.
Qed.

Lemma register_new_employee_keeps_alignment_witness :
  Basic.known_names Demo.basic_with_ana !! 0%nat = Some "Ana"
  /\ Basic.known_ids Demo.basic_with_ana !! 0%nat = Some "E1".
Proof.
  destruct (register_new_employee_keeps_alignment "E1" "Ana" (Some [100])
              Sample.basic_empty_gallery eq_refl eq_refl)
    as (_ & _ & _ & Hok).
  destruct (Hok eq_refl) as (first & rest & _ & _ & Hname & Hid & _).
  split; [exact Hname | exact Hid].
Defined.

(** X13: no [IndexError] in the basic controller. When the three lists of
    the gallery have the same length and the matcher returns one verdict
    and one distance per known face, [recognize_face] returns. *)
Theorem basic_recognize_face_no_index_error {encoding : Type}
    (M : Matcher encoding) (B : Backend) (rd : Basic.reads) (enc : encoding)
    (s : Basic.System encoding) :
  length (Basic.known_names s) = length (Basic.known_faces s) ->
  length (Basic.known_ids s) = length (Basic.known_faces s) ->
  length (compare_faces (Basic.known_faces s) enc (6 # 10))
  = length (Basic.known_faces s) ->
  length (face_distance (Basic.known_faces s) enc)
  = length (Basic.known_faces s) ->
  exists name s', Basic.recognize_face rd enc s = Some (name, s').
Proof.
  intros Hn Hi Hm Hd. unfold Basic.recognize_face.
  destruct (0 <? length (face_distance (Basic.known_faces s) enc))%nat eqn:El;
    [|eauto].
  destruct (argmin_spec _ (length_nonempty _ El)) as (d & Hd' & _).
  set (i := argmin (face_distance (Basic.known_faces s) enc)) in *.
  assert (Hlt : (i < length (Basic.known_faces s))%nat).
  { rewrite <- Hd. now apply lookup_lt_Some with d. }
  destruct (lookup_lt_is_Some_2
              (compare_faces (Basic.known_faces s) enc (6 # 10)) i)
    as [m Hm']; [lia|].
  destruct (lookup_lt_is_Some_2 (Basic.known_names s) i) as [n Hn']; [lia|].
  destruct (lookup_lt_is_Some_2 (Basic.known_ids s) i) as [e He']; [lia|].
  rewrite Hm', Hd'. simpl.
  destruct (m && Qltb d (6 # 10)); [|eauto].
  rewrite Hn', He'. simpl.
  destruct (negb (bool_decide (e = EmptyString)) && _); [|eauto].
  destruct (Basic.send_timecard_to_backend e n (Basic.t_stamp rd) _)
    as [[[] result] s3]; eauto.
Qed.

Lemma basic_recognize_face_no_index_error_witness :
  exists name s',
    @Basic.recognize_face Z Sample.matcher Sample.store_up
      (Basic.mkReads Sample.noon Sample.noon Sample.noon) 100 Demo.basic_with_ana
    = Some (name, s').
Proof.
  apply (basic_recognize_face_no_index_error Sample.matcher Sample.store_up
           (Basic.mkReads Sample.noon Sample.noon Sample.noon) 100
           Demo.basic_with_ana eq_refl eq_refl eq_refl eq_refl).
Defined.

(** * Retention of the backups *)

Section BackupFacts.
Import Backups.

Lemma insert_newest_first_perm (x : entry) (l : list entry) :
  insert_newest_first x l ≡ₚ x :: l.
Proof.
  induction l as [|y l IH]; simpl; [reflexivity|].
  destruct (Qltb x.2 y.2); [|reflexivity].
  rewrite IH. apply Permutation_swap.
Qed.

Lemma sort_newest_first_perm (l : list entry) : sort_newest_first l ≡ₚ l.
Proof.
  induction l as [|x l IH]; simpl; [reflexivity|].
  now rewrite insert_newest_first_perm, IH.
Qed.

Lemma insert_newest_first_sorted (x : entry) (l : list entry) :
  newest_first l -> newest_first (insert_newest_first x l).
Proof.
  induction l as [|y l IH]; simpl.
  - intros _. split; [constructor | exact I].
  - intros [Hy Hl]. destruct (Qltb x.2 y.2) eqn:E; simpl.
    + apply Qltb_true in E. split; [|now apply IH].
      rewrite insert_newest_first_perm. constructor; [|exact Hy].
      now apply Qlt_le_weak.
    + apply Qltb_false in E. split; [|now split].
      constructor; [exact E|].
      eapply Forall_impl; [exact Hy|]. simpl. intros z Hz.
      now apply Qle_trans with y.2.
Qed.

Lemma sort_newest_first_sorted (l : list entry) :
  newest_first (sort_newest_first l).
Proof.
  induction l as [|x l IH]; simpl; [exact I|].
  now apply insert_newest_first_sorted.
Qed.

Lemma newest_first_take_drop (l : list entry) (k : nat) (a b : entry) :
  newest_first l -> a ∈ take k l -> b ∈ drop k l -> (b.2 <= a.2)%Q.
Proof.
  revert k. induction l as [|x l IH]; intros k Hs Ha Hb.
  - destruct k; simpl in Ha; now apply elem_of_nil in Ha.
  - destruct k as [|k]; simpl in Ha, Hb.
    + now apply elem_of_nil in Ha.
    + destruct Hs as [Hx Hl]. apply elem_of_cons in Ha as [-> | Ha].
      * apply (proj1 (Forall_forall _ _) Hx).
        apply (elem_of_sublist _ _ _ Hb), sublist_drop.
      * now apply (IH k).
Qed.

Lemma remove_all_prefix (remove_ok : string -> bool) (files : list entry) :
  remove_all remove_ok files `prefix_of` map fst files.
Proof.
  induction files as [|f rest IH]; simpl; [reflexivity|].
  destruct (remove_ok f.1); [now apply prefix_cons | apply prefix_nil].
Qed.

Lemma remove_all_ok (remove_ok : string -> bool) (files : list entry) :
  (forall p, remove_ok p = true) ->
  remove_all remove_ok files = map fst files.
Proof.
  intros Hok. induction files as [|f rest IH]; simpl; [reflexivity|].
  now rewrite Hok, IH.
Qed.

Lemma doomed_sublist (m : Z) (listing : list entry) (f : entry) :
  f ∈ doomed m listing -> f ∈ listing /\ is_backup f.1 = true.
Proof.
  unfold doomed, slice_from, backup_files. intros Hf.
  assert (Hi : f ∈ sort_newest_first
                     (List.filter (fun f => is_backup f.1) listing)).
  { apply (elem_of_sublist _ _ _ Hf), sublist_drop. }
  rewrite sort_newest_first_perm in Hi.
  apply list_elem_of_In, filter_In in Hi as [Hin Hb].
  split; [now apply list_elem_of_In | exact Hb].
Qed.

End BackupFacts.

(** X14: only backups are removed. Every file removed by
    [cleanup_old_backups] is an entry of the backup directory whose name
    starts with [face_encodings_backup_] and ends with [.pkl]; any other
    file of the directory is left alone, whatever [MAX_BACKUPS] is. *)
Theorem cleanup_removes_only_backups (max_backups : option Z)
    (remove_ok : string -> bool) (listing : list Backups.entry) (p : string) :
  p ∈ Backups.cleanup_old_backups max_backups remove_ok listing ->
  Backups.is_backup p = true /\ exists ctime, (p, ctime) ∈ listing.
Proof.
  unfold Backups.cleanup_old_backups.
  destruct max_backups as [m|]; [|intros Hp; now apply elem_of_nil in Hp].
  intros Hp.
  pose proof (remove_all_prefix remove_ok (Backups.doomed m listing)) as [k Hk].
  assert (Hin : p ∈ map fst (Backups.doomed m listing)).
  { rewrite Hk. apply elem_of_app. now left. }
  apply list_elem_of_fmap in Hin as ([name ctime] & -> & Hf).
  apply doomed_sublist in Hf as [Hl Hb]. simpl in *.
  split; [exact Hb | now exists ctime].
Qed.

Lemma cleanup_removes_only_backups_witness :
  Backups.is_backup "face_encodings_backup_20240101_000000.pkl" = true
  /\ exists ctime,
       ("face_encodings_backup_20240101_000000.pkl", ctime) ∈ Demo.listing.
Proof.
  apply (cleanup_removes_only_backups (Some 2) Demo.always Demo.listing).
  vm_compute. apply elem_of_cons. now left.
Defined.

(** X15: how many backups are removed. When every [os.remove] succeeds and
    the directory holds [n] backups, [cleanup_old_backups] removes
    [n - MAX_BACKUPS] of them (none when [n <= MAX_BACKUPS]) for a
    [MAX_BACKUPS] that is not negative, so at most [MAX_BACKUPS] backups
    survive. For a negative [MAX_BACKUPS] the slice counts from the end:
    only the [-MAX_BACKUPS] oldest backups are removed. *)
Theorem cleanup_removes_the_excess (max_backups : Z)
    (remove_ok : string -> bool) (listing : list Backups.entry) :
  (forall p, remove_ok p = true) ->
  let n := length (Backups.backup_files listing) in
  length (Backups.cleanup_old_backups (Some max_backups) remove_ok listing)
  = if max_backups <? 0 then Nat.min n (Z.to_nat (- max_backups))
    else (n - Z.to_nat max_backups)%nat.
Proof.
  intros Hok n. unfold Backups.cleanup_old_backups.
  rewrite (remove_all_ok _ _ Hok), length_map.
  unfold Backups.doomed, Backups.slice_from. rewrite length_drop.
  rewrite (Permutation_length (sort_newest_first_perm _)). fold n.
  destruct (max_backups <? 0) eqn:E; cbv iota.
  - apply Z.ltb_lt in E.
    rewrite (Permutation_length (sort_newest_first_perm _)). fold n. lia.
  - reflexivity.
Qed.

Lemma cleanup_removes_the_excess_witness :
  length (Backups.cleanup_old_backups (Some 2) Demo.always Demo.listing)
  = 1%nat.
Proof.
  apply (cleanup_removes_the_excess 2 Demo.always Demo.listing).
  reflexivity.
Defined.

(** X16: the newest backups are kept. For a [MAX_BACKUPS] that is not
    negative, the backups of the directory split into the files handed to
    [os.remove] and at most [MAX_BACKUPS] kept files, and no removed file
    was created after a kept one. *)
Theorem cleanup_keeps_the_newest (max_backups : Z)
    (listing : list Backups.entry) :
  0 <= max_backups ->
  exists kept,
    Backups.backup_files listing ≡ₚ kept ++ Backups.doomed max_backups listing
    /\ length kept
       = Nat.min (Z.to_nat max_backups) (length (Backups.backup_files listing))
    /\ forall k r,
         k ∈ kept -> r ∈ Backups.doomed max_backups listing ->
         (r.2 <= k.2)%Q.
Proof.
  intros Hm. unfold Backups.doomed, Backups.slice_from.
  apply Z.ltb_ge in Hm. rewrite Hm.
  set (sorted := Backups.sort_newest_first (Backups.backup_files listing)).
  exists (take (Z.to_nat max_backups) sorted). repeat split.
  - rewrite take_drop. symmetry. apply sort_newest_first_perm.
  - rewrite length_take. unfold sorted.
    now rewrite (Permutation_length (sort_newest_first_perm _)).
  - intros k r Hk Hr.
    apply (newest_first_take_drop sorted (Z.to_nat max_backups)); auto.
    apply sort_newest_first_sorted.
Qed.

Lemma cleanup_keeps_the_newest_witness :
  exists kept,
    Backups.backup_files Demo.listing ≡ₚ kept ++ Backups.doomed 2 Demo.listing
    /\ length kept = 2%nat.
Proof.
  destruct (cleanup_keeps_the_newest 2 Demo.listing) as (kept & Hp & Hl & _).
  - discriminate.
  - exists kept. split; [exact Hp | exact Hl].
Defined.

(** * The attendance store *)

Section StoreFacts.
Import Store.

Lemma last_record_snoc (id : string) (es : gmap string (string * Z))
    (rows : list TimeCard) (row : TimeCard) :
  last_record id (mkDatabase es (rows ++ [row]))
  = if bool_decide (tc_employee_id row = id)
    then Some (match last_record id (mkDatabase es rows) with
               | Some a => later a row
               | None => row
               end)
    else last_record id (mkDatabase es rows).
Proof. unfold last_record; simpl. now rewrite fold_left_app. Qed.

Lemma last_record_employees (id : string) (es es' : gmap string (string * Z))
    (rows : list TimeCard) :
  last_record id (mkDatabase es rows) = last_record id (mkDatabase es' rows).
Proof. reflexivity. Qed.

(** the row found belongs to the employee and is in the table *)
Lemma last_record_row (id : string) (db : Database) (r : TimeCard) :
  last_record id db = Some r -> r ∈ rows_of id db.
Proof.
  destruct db as [es rows]. revert r.
  induction rows as [|row rows IH] using rev_ind; intros r.
  - discriminate.
  - rewrite last_record_snoc. unfold rows_of in *; simpl in *.
    rewrite List.filter_app. simpl.
    destruct (bool_decide (tc_employee_id row = id)) eqn:E.
    + intros [= <-]. apply elem_of_app.
      destruct (last_record id (mkDatabase es rows)) as [a|] eqn:Ea.
      * unfold later. destruct (_ <? _).
        -- right. apply elem_of_cons. now left.
        -- left. now apply IH.
      * right. apply elem_of_cons. now left.
    + intros Hr. apply elem_of_app. left. now apply IH.
Qed.

Lemma last_record_none (id : string) (db : Database) :
  rows_of id db = [] -> last_record id db = None.
Proof.
  destruct db as [es rows].
  induction rows as [|row rows IH] using rev_ind; [reflexivity|].
  rewrite last_record_snoc. unfold rows_of in *; simpl in *.
  rewrite List.filter_app. simpl.
  destruct (bool_decide (tc_employee_id row = id)).
  - intros Habs. now apply app_eq_nil in Habs as [_ Habs].
  - rewrite app_nil_r. exact IH.
Qed.

(** a row of the employee later than all his rows becomes the last one *)
Lemma last_record_newer (id : string) (es : gmap string (string * Z))
    (rows : list TimeCard) (row : TimeCard) :
  tc_employee_id row = id ->
  (forall r, r ∈ rows_of id (mkDatabase es rows) ->
             tc_timestamp r < tc_timestamp row) ->
  last_record id (mkDatabase es (rows ++ [row])) = Some row.
Proof.
  intros Hid Hlt. rewrite last_record_snoc, bool_decide_eq_true_2 by exact Hid.
  destruct (last_record id (mkDatabase es rows)) as [a|] eqn:Ea; [|reflexivity].
  apply last_record_row, Hlt in Ea. unfold later.
  apply Z.ltb_lt in Ea. now rewrite Ea.
Qed.

Lemma fold_max_ge (l : list Z) (a : Z) :
  a <= fold_left Z.max l a /\ Forall (fun x => x <= fold_left Z.max l a) l.
Proof.
  revert a. induction l as [|x l IH]; intros a; simpl.
  - split; [lia | constructor].
  - destruct (IH (Z.max a x)) as [H1 H2]. split; [lia|].
    constructor; [lia | exact H2].
Qed.

Lemma next_id_fresh (db : Database) :
  Forall (fun r => tc_id r < next_id db) (timecards db).
Proof.
  unfold next_id. destruct (timecards db) as [|tc rest]; [constructor|].
  destruct (fold_max_ge (map tc_id rest) (tc_id tc)) as [H1 H2].
  constructor; [lia|].
  apply Forall_forall. intros r Hr.
  assert (Hin : tc_id r ∈ map tc_id rest) by now apply list_elem_of_fmap_2.
  apply (proj1 (Forall_forall _ _) H2) in Hin. lia.
Qed.

(** what a request with its three fields and a readable timestamp does *)
Lemma register_timecard_ok (fromisoformat : string -> option Z)
    (now_employee now_timecard : Z) (d : gmap string string) (db : Database)
    (id name ts : string) (t : Z) :
  d !! "employee_id" = Some id ->
  d !! "employee_name" = Some name ->
  d !! "timestamp" = Some ts ->
  fromisoformat (replace_Z ts) = Some t ->
  register_timecard fromisoformat now_employee now_timecard (Some d) db
  = (let entry_type := determine_entry_type id db in
     let row := mkTimeCard (next_id db) id name t
                           (default "facial" (d !! "recognition_method"))
                           (Some entry_type) now_timecard in
     (Registered ("Ponto registrado com sucesso - " +:+ upper entry_type) row,
      mkDatabase
        (match employees db !! id with
         | Some _ => employees db
         | None => <[id := (name, now_employee)]> (employees db)
         end)
        (timecards db ++ [row]))).
Proof.
  intros Hid Hname Hts Ht. unfold register_timecard, required_fields.
  rewrite bool_decide_eq_false_2
    by (intros ->; now rewrite lookup_empty in Hid).
  simpl. rewrite Hid, Hname, Hts. simpl. now rewrite Ht.
Qed.

End StoreFacts.



(** X18: an accepted punch is appended. A request that carries the three
    required fields and a timestamp that parses is answered 200: exactly
    one row is appended, with the id, name and timestamp of the request,
    method [facial] unless the request names one, the entry type given by
    [determine_entry_type] and a key larger than every key of the table.
    An employee already known keeps his row (his stored name is not
    overwritten); an unknown one is created with the name of the request. *)
Theorem accepted_punch_is_appended (fromisoformat : string -> option Z)
    (now_employee now_timecard : Z) (d : gmap string string)
    (db : Store.Database) (id name ts : string) (t : Z) :
  d !! "employee_id" = Some id ->
  d !! "employee_name" = Some name ->
  d !! "timestamp" = Some ts ->
  fromisoformat (Store.replace_Z ts) = Some t ->
  exists message row db',
    Store.register_timecard fromisoformat now_employee now_timecard (Some d) db
    = (Store.Registered message row, db')
    /\ Store.timecards db' = Store.timecards db ++ [row]
    /\ Store.tc_employee_id row = id
    /\ Store.tc_employee_name row = name
    /\ Store.tc_timestamp row = t
    /\ Store.tc_recognition_method row
       = default "facial" (d !! "recognition_method")
    /\ Store.tc_entry_type row = Some (Store.determine_entry_type id db)
    /\ Forall (fun r => Store.tc_id r < Store.tc_id row) (Store.timecards db)
    /\ (forall other, other <> id ->
          Store.employees db' !! other = Store.employees db !! other)
    /\ match Store.employees db !! id with
       | Some known => Store.employees db' !! id = Some known
       | None => Store.employees db' !! id = Some (name, now_employee)
       end.
Proof.
  intros Hid Hname Hts Ht.
  rewrite (register_timecard_ok _ _ _ _ _ _ _ _ _ Hid Hname Hts Ht).
  cbv zeta. eexists _, _, _. split; [reflexivity|]. simpl.
  repeat split.
  - apply next_id_fresh.
  - intros other Hne. destruct (Store.employees db !! id); [reflexivity|].
    now apply lookup_insert_ne.
  - destruct (Store.employees db !! id) eqn:E; [exact E|].
    apply lookup_insert_eq.
Qed.

Lemma accepted_punch_is_appended_witness :
  exists message row db',
    Store.register_timecard Demo.parse 0 0 (Demo.punch "E1" "Ana" "100")
                            Store.empty_db
    = (Store.Registered message row, db')
    /\ Store.timecards db' = [row]
    /\ Store.tc_entry_type row = Some "entrada".
Proof.
  destruct (accepted_punch_is_appended Demo.parse 0 0
              (<["employee_id" := "E1"]>
                 (<["employee_name" := "Ana"]> {[ "timestamp" := "100" ]}))
              Store.empty_db "E1" "Ana" "100" 100)
    as (message & row & db' & Hr & Hrows & _ & _ & _ & _ & Hty & _);
    try (vm_compute; reflexivity).
  exists message, row, db'. split; [exact Hr|]. split; [exact Hrows|exact Hty].
Defined.

(** X19: punches alternate. When an accepted punch is later than every
    earlier row of the employee, it becomes his last row: if it was typed
    [entrada] the employee is now [dentro] and his next punch will be
    [saida]; if it was typed [saida] he is [fora] and his next punch will
    be [entrada]. The first punch of an employee is an [entrada]. *)
Theorem punches_alternate (fromisoformat : string -> option Z)
    (now_employee now_timecard : Z) (d : gmap string string)
    (db : Store.Database) (id name ts : string) (t : Z) :
  d !! "employee_id" = Some id ->
  d !! "employee_name" = Some name ->
  d !! "timestamp" = Some ts ->
  fromisoformat (Store.replace_Z ts) = Some t ->
  (forall r, r ∈ Store.rows_of id db -> Store.tc_timestamp r < t) ->
  let db' := (Store.register_timecard fromisoformat now_employee now_timecard
                (Some d) db).2 in
  let entry_type := Store.determine_entry_type id db in
  (Store.rows_of id db = [] -> entry_type = "entrada")
  /\ ((entry_type = "entrada"
       /\ Store.determine_entry_type id db' = "saida"
       /\ (Store.get_employee_status id db').1 = "dentro")
      \/ (entry_type = "saida"
          /\ Store.determine_entry_type id db' = "entrada"
          /\ (Store.get_employee_status id db').1 = "fora")).
Proof.
  intros Hid Hname Hts Ht Hlt.
  rewrite (register_timecard_ok _ _ _ _ _ _ _ _ _ Hid Hname Hts Ht).
  cbv zeta. simpl snd. split.
  - intros Hnone. unfold Store.determine_entry_type.
    now rewrite (last_record_none _ _ Hnone).
  - set (ty := Store.determine_entry_type id db).
    set (row := Store.mkTimeCard _ _ _ _ _ _ _).
    assert (Hlast : forall es,
              Store.last_record id (Store.mkDatabase es (Store.timecards db ++ [row]))
              = Some row).
    { intros es. apply last_record_newer; [reflexivity|].
      intros r Hr. simpl. apply Hlt. exact Hr. }
    unfold Store.determine_entry_type, Store.get_employee_status.
    rewrite !Hlast. simpl.
    assert (Hty : ty = "entrada" \/ ty = "saida").
    { unfold ty, Store.determine_entry_type.
      destruct (Store.last_record id db); [destruct (bool_decide _)|]; auto. }
    destruct Hty as [-> | ->]; [left | right]; repeat split.
Qed.

(** Ana's first punch, at 100, is an entrada; her second, at 200, is a
    saida and leaves her out. *)
Lemma punches_alternate_witness :
  let db' := (Store.register_timecard Demo.parse 0 0
                (Demo.punch "E1" "Ana" "200") Demo.after_first_punch).2 in
  Store.determine_entry_type "E1" Demo.after_first_punch = "saida"
  /\ Store.determine_entry_type "E1" db' = "entrada"
  /\ (Store.get_employee_status "E1" db').1 = "fora".
Proof.
  destruct (punches_alternate Demo.parse 0 0
              (<["employee_id" := "E1"]>
                 (<["employee_name" := "Ana"]> {[ "timestamp" := "200" ]}))
              Demo.after_first_punch "E1" "Ana" "200" 200)
    as [_ [(Habs & _) | H]]; try (vm_compute; reflexivity).
  - intros r Hr. vm_compute in Hr.
    apply elem_of_cons in Hr as [-> | Hr]; [reflexivity|].
    now apply elem_of_nil in Hr.
  - vm_compute in Habs. discriminate.
  - exact H.
Defined.

(** a request either leaves the database alone or is one with its three
    fields and a readable timestamp *)
Lemma register_timecard_cases (fromisoformat : string -> option Z)
    (now_employee now_timecard : Z) (data : option (gmap string string))
    (db : Store.Database) :
  (Store.register_timecard fromisoformat now_employee now_timecard data db).2
  = db
  \/ exists d id name ts t,
       data = Some d
       /\ d !! "employee_id" = Some id
       /\ d !! "employee_name" = Some name
       /\ d !! "timestamp" = Some ts
       /\ fromisoformat (Store.replace_Z ts) = Some t.
Proof.
  unfold Store.register_timecard.
  destruct data as [d|]; [|now left].
  destruct (bool_decide (d = ∅)); [now left|].
  destruct (List.find _ Store.required_fields) eqn:Ef; [now left|].
  assert (Hf : forall field, In field Store.required_fields ->
                             exists v, d !! field = Some v).
  { intros field Hin. pose proof (find_none _ _ Ef field Hin) as Hn.
    apply bool_decide_eq_false in Hn.
    destruct (d !! field) as [v|]; [now exists v | now destruct Hn]. }
  destruct (Hf "employee_id") as [id Hid]; [simpl; auto|].
  destruct (Hf "employee_name") as [name Hname]; [simpl; auto|].
  destruct (Hf "timestamp") as [ts Hts]; [simpl; auto|].
  rewrite Hts. simpl.
  destruct (fromisoformat (Store.replace_Z ts)) as [t|] eqn:Et; [|now left].
  right. now exists d, id, name, ts, t.
Qed.

(** X20: employees do not interfere. A request, accepted or not, that does
    not carry the id of an employee leaves that employee as he was: same
    row in [employee], same rows in [time_card], same status and same
    next entry type. *)
Theorem other_employees_are_unaffected (fromisoformat : string -> option Z)
    (now_employee now_timecard : Z) (data : option (gmap string string))
    (db : Store.Database) (other : string) :
  (forall d, data = Some d -> d !! "employee_id" <> Some other) ->
  let db' := (Store.register_timecard fromisoformat now_employee now_timecard
                data db).2 in
  Store.employees db' !! other = Store.employees db !! other
  /\ Store.rows_of other db' = Store.rows_of other db
  /\ Store.determine_entry_type other db' = Store.determine_entry_type other db
  /\ Store.get_employee_status other db' = Store.get_employee_status other db.
Proof.
  intros Hother db'.
  destruct (register_timecard_cases fromisoformat now_employee now_timecard
              data db) as [Hsame | (d & id & name & ts & t & -> & Hid & Hname & Hts & Ht)].
  - unfold db'. rewrite Hsame. auto.
  - assert (Hne : id <> other).
    { intros ->. now apply (Hother d eq_refl). }
    unfold db'.
    rewrite (register_timecard_ok _ _ _ _ _ _ _ _ _ Hid Hname Hts Ht).
    cbv zeta. simpl snd.
    assert (Hlast : forall es row,
              Store.tc_employee_id row = id ->
              Store.last_record other
                (Store.mkDatabase es (Store.timecards db ++ [row]))
              = Store.last_record other db).
    { intros es row Hrow. rewrite last_record_snoc.
      rewrite bool_decide_eq_false_2 by (rewrite Hrow; exact Hne).
      now destruct db. }
    unfold Store.determine_entry_type, Store.get_employee_status, Store.rows_of.
    rewrite !Hlast by reflexivity. simpl.
    repeat split.
    + destruct (Store.employees db !! id); [reflexivity|].
      now apply lookup_insert_ne.
    + rewrite List.filter_app. simpl.
      rewrite bool_decide_eq_false_2 by exact Hne. apply app_nil_r.
Qed.

Lemma other_employees_are_unaffected_witness :
  let db' := (Store.register_timecard Demo.parse 0 0
                (Demo.punch "E2" "Bia" "150") Demo.after_first_punch).2 in
  Store.determine_entry_type "E1" db'
  = Store.determine_entry_type "E1" Demo.after_first_punch.
Proof.
  apply (other_employees_are_unaffected Demo.parse 0 0
           (Demo.punch "E2" "Bia" "150") Demo.after_first_punch "E1").
  intros d [= <-]. vm_compute. discriminate.
Defined.

(** X21: the keys of [time_card] stay distinct. If no two rows share a key
    before a request, no two rows share a key after it. *)
Theorem timecard_keys_stay_distinct (fromisoformat : string -> option Z)
    (now_employee now_timecard : Z) (data : option (gmap string string))
    (db : Store.Database) :
  NoDup (map Store.tc_id (Store.timecards db)) ->
  NoDup (map Store.tc_id
           (Store.timecards
              (Store.register_timecard fromisoformat now_employee
                 now_timecard data db).2)).
Proof.
  intros Hnd.
  destruct (register_timecard_cases fromisoformat now_employee now_timecard
              data db) as [Hsame | (d & id & name & ts & t & -> & Hid & Hname & Hts & Ht)].
  - now rewrite Hsame.
  - rewrite (register_timecard_ok _ _ _ _ _ _ _ _ _ Hid Hname Hts Ht).
    cbv zeta. simpl. rewrite map_app. simpl.
    apply NoDup_app. split; [exact Hnd|]. split.
    + intros k Hk Hk'. apply list_elem_of_singleton in Hk'. subst k.
      apply list_elem_of_fmap in Hk as (r & Hr & Hin).
      pose proof (proj1 (Forall_forall _ _) (next_id_fresh db) r Hin) as Hlt.
      simpl in Hr, Hlt. lia.
    + apply NoDup_singleton.
Qed.

Lemma timecard_keys_stay_distinct_witness :
  NoDup (map Store.tc_id
           (Store.timecards
              (Store.register_timecard Demo.parse 0 0
                 (Demo.punch "E1" "Ana" "200") Demo.after_first_punch).2)).
Proof.
  apply (timecard_keys_stay_distinct Demo.parse 0 0
           (Demo.punch "E1" "Ana" "200") Demo.after_first_punch).
  vm_compute. apply NoDup_singleton.
Defined.

(** * The work window and its validation *)

(** X22: the work window is a plain interval of the day, both ends
    included. A window whose end is before its start (a night shift such
    as 22:00-06:00) is never open, and [validate_config] rejects it; a
    configuration that [validate_config] accepts has a window that starts
    strictly before it ends and is open at both of its ends. *)
Theorem work_window_is_validated (cfg : Config) (detection_model : string)
    (start stop : Z) :
  WORK_START_TIME cfg = Some start ->
  WORK_END_TIME cfg = Some stop ->
  (forall now,
     is_work_hours cfg now = true
     <-> start <= Time.time_of_day now <= stop)
  /\ (stop < start ->
      (forall now, is_work_hours cfg now = false)
      /\ Validation.validate_config cfg detection_model <> [])
  /\ (Validation.validate_config cfg detection_model = [] ->
      start < stop
      /\ (0 <= start -> stop < Time.hours 24 ->
          is_work_hours cfg start = true /\ is_work_hours cfg stop = true)).
Proof.
  intros Hs He.
  assert (Hiff : forall now,
            is_work_hours cfg now = true
            <-> start <= Time.time_of_day now <= stop).
  { intros now. unfold is_work_hours. rewrite Hs, He.
    rewrite andb_true_iff, !Z.leb_le. reflexivity. }
  split; [exact Hiff|]. split.
  - intros Hlt. split.
    + intros now. destruct (is_work_hours cfg now) eqn:E; [|reflexivity].
      apply Hiff in E. lia.
    + unfold Validation.validate_config. rewrite Hs, He.
      assert (Hb : (stop <=? start) = true) by (apply Z.leb_le; lia).
      rewrite Hb. intros Habs.
      apply app_eq_nil in Habs as [_ Habs].
      apply app_eq_nil in Habs as [_ Habs].
      now apply app_eq_nil in Habs as [Habs _].
  - unfold Validation.validate_config. rewrite Hs, He. intros Hv.
    apply app_eq_nil in Hv as [_ Hv].
    apply app_eq_nil in Hv as [_ Hv].
    apply app_eq_nil in Hv as [Hv _].
    destruct (stop <=? start) eqn:E; [discriminate|].
    apply Z.leb_gt in E. split; [exact E|].
    intros H0 H24.
    assert (Hday : Time.hours 24 = 24 * 3600 * 1000000) by reflexivity.
    split; apply Hiff; unfold Time.time_of_day;
      rewrite Z.mod_small by lia; lia.
Qed.

Lemma work_window_is_validated_witness :
  is_work_hours Sample.config (Sample.at_hour 7) = true
  /\ is_work_hours Sample.config (Sample.at_hour 19) = true.
Proof.
  destruct (work_window_is_validated Sample.config "hog"
              (Sample.at_hour 7) (Sample.at_hour 19) eq_refl eq_refl)
    as (_ & _ & Hv).
  destruct (Hv eq_refl) as [_ Hends].
  apply Hends; vm_compute; [discriminate | reflexivity].
Defined.

(** * The cooldown of the basic controller *)

(** X23: the cooldown of the basic controller. With a cooldown entry [t0]
    for an identity, [can_register_again] refuses it at every [t] with
    [t0 <= t < t0 + cooldown] and allows it from [t0 + cooldown] on, the
    boundary included; without an entry it allows it. The object is built
    with a cooldown of 10 seconds. *)
Theorem basic_cooldown_window {encoding : Type}
    (s : Basic.System encoding) (id : string) :
  (Basic.last_recognition s !! id = None ->
     forall t, Basic.can_register_again t id s = true)
  /\ (forall t0 t,
        Basic.last_recognition s !! id = Some t0 ->
        (t0 <= t < t0 + Time.seconds (Basic.recognition_cooldown s) ->
         Basic.can_register_again t id s = false)
        /\ (t0 + Time.seconds (Basic.recognition_cooldown s) <= t ->
            Basic.can_register_again t id s = true))
  /\ forall faces names ids,
       Basic.recognition_cooldown (Basic.init_system (encoding := encoding)
                                     faces names ids) = 10.
Proof.
  unfold Basic.can_register_again. split; [|split].
  - intros Hn t. now rewrite Hn.
  - intros t0 t Hl. rewrite Hl, Qle_bool_total_seconds. split; intros Ht.
    + apply Z.leb_gt. lia.
    + apply Z.leb_le. lia.
  - reflexivity.
Qed.

(** Ana was registered at noon in the basic controller: refused 9 s later,
    allowed again after exactly 10 s. *)
Lemma basic_cooldown_window_witness :
  let s := Basic.set_last_recognition {[ "E1" := Sample.noon ]}
             Demo.basic_with_ana in
  Basic.can_register_again (Sample.noon + Sample.at_sec 9) "E1" s = false
  /\ Basic.can_register_again (Sample.noon + Sample.at_sec 10) "E1" s = true.
Proof.
  intros s.
  destruct (basic_cooldown_window s "E1") as (_ & Hw & _).
  destruct (Hw Sample.noon (Sample.noon + Sample.at_sec 9) eq_refl) as [Hin _].
  destruct (Hw Sample.noon (Sample.noon + Sample.at_sec 10) eq_refl) as [_ Hout].
  split.
  - apply Hin. vm_compute. split; [discriminate | reflexivity].
  - apply Hout. vm_compute. discriminate.
Defined.

(** * What a face can cause outside the process *)

Section Events.
Context {encoding : Type} `{Matcher encoding} `{Backend} (cfg : Config).
Implicit Type s : System encoding.


End Events.

Section FaceEvents.
Context {encoding : Type} `{Matcher encoding} `{Backend} (cfg : Config).
Implicit Type s : System encoding.





End FaceEvents.




